(** * Task-Alarm: scheduling core

    A shallow embedding of the scheduling code of the Task-Alarm app:
    - [utils/timeCalculations.ts]: [parseTimeString], [getNextWeekdayOccurrence],
      [getNextAlarmTime], [isValidTimeString], and the display helpers
      [isAlarmDueToday], [formatAlarmTime], [formatDateToTime],
      [getCurrentTimeString], [getAlarmDescription], [getTimeRemaining];
    - [services/NotificationService.ts]: the foreground notification handler
      and the scheduling / cancellation calls on expo-notifications;
    - [services/SchedulerService.ts]: [scheduleAlarm], [cancelAlarm],
      [rescheduleAlarm], [scheduleSnooze], [rescheduleRepeatingAlarm],
      [rescheduleAllAlarms], [validateAlarm];
    - [services/StorageService.ts]: the alarm records ([getAlarms],
      [getAlarmById], [addAlarm], [updateAlarm], [deleteAlarm],
      [clearAllAlarms]) and the settings ([saveSettings], [getSettings],
      [updateSettings]);
    - [context/AlarmContext.tsx]: [loadAlarms], [addAlarm], [updateAlarm],
      [deleteAlarm], [toggleAlarm];
    - [App.tsx]: the [onSnooze] / [onDismiss] notification-response handlers;
    - the repeat-day picker's [toggleDay] and the alarm card's
      [renderRepeatDays].

    Modelling conventions.
    - A JS [Date] is its millisecond count [getTime()] as a [Z]; local time is
      taken with a fixed offset (no daylight-saving jumps), so a calendar day
      is [MS_PER_DAY] milliseconds and [setDate(getDate() + k)] adds [k] days.
    - Every [new Date()] / [Date.now()] read within one operation is the same
      instant [now], a parameter of the operation.
    - Strings are ASCII strings; [parseInt]'s NaN is [None].
    - A thrown [Error] is [Err msg]; [try/catch] is [catch].
    - A [useCallback] closure reads the [alarms] list of the render that
      created it: [updateAlarm] is the callback of the render showing the
      current list, [updateAlarm_cb captured] the one of any render. *)

From Stdlib Require Import ZArith QArith Lia Ascii String.
From stdpp Require Import base list gmap strings.

Open Scope Z_scope.

(* ------------------------------------------------------------------ *)
(** ** Results of fallible code *)

Inductive result (A : Type) : Type :=
| Ok (a : A)
| Err (msg : string).
Arguments Ok {A} a.
Arguments Err {A} msg.

(* ------------------------------------------------------------------ *)
(** ** JS string primitives *)

(** [s.split(':')]: the pieces between colons; [""] splits to [[""]]. *)
Fixpoint split_colon (s : string) : list string :=
  match s with
  | EmptyString => [EmptyString]
  | String c rest =>
      if Ascii.eqb c ":"%char then EmptyString :: split_colon rest
      else match split_colon rest with
           | [] => [String c EmptyString]
           | p :: ps => String c p :: ps
           end
  end.

(** StrWhiteSpaceChar restricted to ASCII: TAB, LF, VT, FF, CR and space. *)
Definition is_js_space (c : Ascii.ascii) : bool :=
  let n := Ascii.nat_of_ascii c in
  (n =? 32)%nat || ((9 <=? n)%nat && (n <=? 13)%nat).

Fixpoint trimStart (s : string) : string :=
  match s with
  | String c rest => if is_js_space c then trimStart rest else s
  | EmptyString => EmptyString
  end.

Definition digit_value (c : Ascii.ascii) : option Z :=
  let n := Z.of_nat (Ascii.nat_of_ascii c) in
  if (48 <=? n) && (n <=? 57) then Some (n - 48) else None.

(** The longest prefix of decimal digits, [None] when it is empty. *)
Fixpoint digits_prefix (s : string) (acc : Z) (seen : bool) : option Z :=
  match s with
  | String c rest =>
      match digit_value c with
      | Some d => digits_prefix rest (acc * 10 + d) true
      | None => if seen then Some acc else None
      end
  | EmptyString => if seen then Some acc else None
  end.

(** [parseInt(s, 10)]; the argument is [None] for [undefined], which
    [parseInt] reads as the string ["undefined"]. *)
Definition parseInt (s : option string) : option Z :=
  let str := match s with Some x => x | None => "undefined"%string end in
  match trimStart str with
  | String c rest =>
      if Ascii.eqb c "-"%char then option_map Z.opp (digits_prefix rest 0 false)
      else if Ascii.eqb c "+"%char then digits_prefix rest 0 false
      else digits_prefix (String c rest) 0 false
  | EmptyString => None
  end.

(* ------------------------------------------------------------------ *)
(** ** timeCalculations.ts *)

Definition INVALID_TIME : string := "Invalid time format. Expected HH:mm".

(** [const [hoursStr, minutesStr] = time.split(':')]: a missing piece is
    [undefined]. *)
Definition parseTimeString (time : string) : result (Z * Z) :=
  let parts := split_colon time in
  let hours := parseInt (parts !! 0%nat) in
  let minutes := parseInt (parts !! 1%nat) in
  match hours, minutes with
  | Some h, Some m =>
      if (h <? 0) || (h >? 23) || (m <? 0) || (m >? 59)
      then Err INVALID_TIME
      else Ok (h, m)
  | _, _ => Err INVALID_TIME
  end.

Definition isValidTimeString (time : string) : bool :=
  match parseTimeString time with Ok _ => true | Err _ => false end.

Inductive WeekDay := Mon | Tue | Wed | Thu | Fri | Sat | Sun.

Definition WeekDay_eqb (x y : WeekDay) : bool :=
  match x, y with
  | Mon, Mon | Tue, Tue | Wed, Wed | Thu, Thu
  | Fri, Fri | Sat, Sat | Sun, Sun => true
  | _, _ => false
  end.

Definition WEEKDAY_TO_NUMBER (d : WeekDay) : Z :=
  match d with
  | Sun => 0 | Mon => 1 | Tue => 2 | Wed => 3 | Thu => 4 | Fri => 5 | Sat => 6
  end.

(** [NUMBER_TO_WEEKDAY] on the range [0..6] that [getDay] returns. *)
Definition NUMBER_TO_WEEKDAY (n : Z) : WeekDay :=
  match n with
  | 0 => Sun | 1 => Mon | 2 => Tue | 3 => Wed | 4 => Thu | 5 => Fri | _ => Sat
  end.

Definition MS_PER_MINUTE : Z := 60000.
Definition MS_PER_HOUR : Z := 3600000.
Definition MS_PER_DAY : Z := 86400000.

(** [d.getDay()]: 1970-01-01 was a Thursday (4). *)
Definition getDay (t : Z) : Z := (t / MS_PER_DAY + 4) mod 7.

(** [new Date(t).setHours(h, m, 0, 0)]. *)
Definition setHours (t h m : Z) : Z :=
  (t / MS_PER_DAY) * MS_PER_DAY + h * MS_PER_HOUR + m * MS_PER_MINUTE.

(** [new Date(t).setDate(t.getDate() + k)]. *)
Definition addDays (t k : Z) : Z := t + k * MS_PER_DAY.

Definition getNextWeekdayOccurrence (day : WeekDay) (time : string) (now : Z)
  : result Z :=
  match parseTimeString time with
  | Err e => Err e
  | Ok (hours, minutes) =>
      let targetDayNumber := WEEKDAY_TO_NUMBER day in
      let currentDayNumber := getDay now in
      let daysUntil := targetDayNumber - currentDayNumber in
      let nextDate k := setHours (addDays now k) hours minutes in
      if daysUntil =? 0 then
        let alarmTime := setHours now hours minutes in
        if alarmTime >? now then Ok alarmTime else Ok (nextDate 7)
      else if daysUntil <? 0 then Ok (nextDate (daysUntil + 7))
      else Ok (nextDate daysUntil)
  end.

(** The [for (const day of repeats)] loop keeping the earliest occurrence
    (the first one on ties). *)
Fixpoint nextOccurrenceLoop (repeats : list WeekDay) (time : string) (now : Z)
    (nextOccurrence : option Z) : result (option Z) :=
  match repeats with
  | [] => Ok nextOccurrence
  | day :: rest =>
      match getNextWeekdayOccurrence day time now with
      | Err e => Err e
      | Ok occurrence =>
          let next :=
            match nextOccurrence with
            | None => Some occurrence
            | Some n => if occurrence <? n then Some occurrence else Some n
            end in
          nextOccurrenceLoop rest time now next
      end
  end.

Definition getNextAlarmTime (time : string) (repeats : list WeekDay) (now : Z)
  : result Z :=
  match parseTimeString time with
  | Err e => Err e
  | Ok (hours, minutes) =>
      match repeats with
      | [] =>
          let alarmTime := setHours now hours minutes in
          if alarmTime >? now then Ok alarmTime else Ok (addDays alarmTime 1)
      | _ =>
          let currentDayName := NUMBER_TO_WEEKDAY (getDay now) in
          let todayAlarmTime := setHours now hours minutes in
          if existsb (WeekDay_eqb currentDayName) repeats && (todayAlarmTime >? now)
          then Ok todayAlarmTime
          else
            match nextOccurrenceLoop repeats time now None with
            | Err e => Err e
            | Ok None => Err "Failed to calculate next alarm time"
            | Ok (Some t) => Ok t
            end
      end
  end.


Definition is_digit (v : option Z) : bool :=
  match v with Some _ => true | None => false end.

(** The "HH:mm" shape named by the error message of [parseTimeString]:
    two digits, a colon, two digits. *)
Definition is_HHmm_shape (s : string) : bool :=
  match s with
  | String h1 (String h2 (String c (String m1 (String m2 EmptyString)))) =>
      is_digit (digit_value h1) && is_digit (digit_value h2) && Ascii.eqb c ":"%char
      && is_digit (digit_value m1) && is_digit (digit_value m2)
  | _ => false
  end.

(* ------------------------------------------------------------------ *)
(** ** Data model (types/alarm.types.ts) *)

(** Notification identifiers returned by expo-notifications are opaque;
    they are numbered here. *)
Definition NotificationId := nat.

Record Alarm := mkAlarm {
  id : string;
  label : string;
  description : option string;
  time : string;
  repeats : list WeekDay;
  isEnabled : bool;
  soundUri : string;
  snoozeEnabled : bool;
  snoozeDuration : Z;
  notificationId : option NotificationId;
  createdAt : Z;
  updatedAt : Z
}.

(** [AlarmInput = Omit<Alarm, 'id' | 'createdAt' | 'updatedAt' | 'notificationId'>]. *)
Record AlarmInput := mkAlarmInput {
  in_label : string;
  in_description : option string;
  in_time : string;
  in_repeats : list WeekDay;
  in_isEnabled : bool;
  in_soundUri : string;
  in_snoozeEnabled : bool;
  in_snoozeDuration : Z
}.

(** [Partial<Alarm>] as passed to [updateAlarm]: [None] is an absent key.
    [u_notificationId = Some None] is an explicit [notificationId: undefined]. *)
Record AlarmUpdate := mkAlarmUpdate {
  u_label : option string;
  u_description : option (option string);
  u_time : option string;
  u_repeats : option (list WeekDay);
  u_isEnabled : option bool;
  u_soundUri : option string;
  u_snoozeEnabled : option bool;
  u_snoozeDuration : option Z;
  u_notificationId : option (option NotificationId)
}.

Definition noUpdates : AlarmUpdate :=
  mkAlarmUpdate None None None None None None None None None.

Definition update_isEnabled (b : bool) : AlarmUpdate :=
  mkAlarmUpdate None None None None (Some b) None None None None.

Definition update_notificationId (n : option NotificationId) : AlarmUpdate :=
  mkAlarmUpdate None None None None None None None None (Some n).

Definition set_notificationId (a : Alarm) (n : option NotificationId) : Alarm :=
  mkAlarm (id a) (label a) (description a) (time a) (repeats a) (isEnabled a)
    (soundUri a) (snoozeEnabled a) (snoozeDuration a) n (createdAt a) (updatedAt a).

Definition set_updatedAt (a : Alarm) (t : Z) : Alarm :=
  mkAlarm (id a) (label a) (description a) (time a) (repeats a) (isEnabled a)
    (soundUri a) (snoozeEnabled a) (snoozeDuration a) (notificationId a) (createdAt a) t.

Definition spread_field {A} (o : option A) (d : A) : A :=
  match o with Some x => x | None => d end.

(** [{ ...existingAlarm, ...updates, id, createdAt: existingAlarm.createdAt,
      updatedAt: now }]. *)
Definition applyUpdates (e : Alarm) (u : AlarmUpdate) (now : Z) : Alarm :=
  mkAlarm (id e)
    (spread_field (u_label u) (label e))
    (spread_field (u_description u) (description e))
    (spread_field (u_time u) (time e))
    (spread_field (u_repeats u) (repeats e))
    (spread_field (u_isEnabled u) (isEnabled e))
    (spread_field (u_soundUri u) (soundUri e))
    (spread_field (u_snoozeEnabled u) (snoozeEnabled e))
    (spread_field (u_snoozeDuration u) (snoozeDuration e))
    (spread_field (u_notificationId u) (notificationId e))
    (createdAt e) now.

Record NotificationData := mkNotificationData {
  nd_alarmId : string;
  nd_isSnoozed : bool;
  nd_label : string;
  nd_scheduledAt : option Z
}.

(** A request registered with expo-notifications (date trigger). *)
Record ScheduledNotification := mkScheduled {
  sn_identifier : NotificationId;
  sn_data : NotificationData;
  sn_triggerDate : Z
}.

(** The external notifier: the pending requests, the next identifier it will
    hand out, and the script of outcomes of its next [schedule] calls
    ([false] = the platform refuses; an exhausted script accepts). *)
Record Notifier := mkNotifier {
  scheduled : list ScheduledNotification;
  nextIdentifier : NotificationId;
  scheduleOutcomes : list bool
}.

Record AppState := mkAppState {
  alarms : list Alarm;          (** the React [alarms] state *)
  storage : list Alarm;         (** the AsyncStorage alarm list *)
  error : option string;        (** the React [error] state *)
  notifier : Notifier
}.

(* ------------------------------------------------------------------ *)
(** ** A state and error monad *)

Definition M (A : Type) : Type := AppState -> result A * AppState.

Definition ret {A} (a : A) : M A := fun s => (Ok a, s).

Definition bind {A B} (c : M A) (k : A -> M B) : M B :=
  fun s => match c s with
           | (Ok a, s') => k a s'
           | (Err e, s') => (Err e, s')
           end.

Definition throw {A} (e : string) : M A := fun s => (Err e, s).

Definition catch {A} (c : M A) (handler : string -> M A) : M A :=
  fun s => match c s with
           | (Err e, s') => handler e s'
           | r => r
           end.

Definition get : M AppState := fun s => (Ok s, s).

Notation "'let*' x := c 'in' k" := (bind c (fun x => k))
  (at level 200, x name, c at level 100, right associativity).

Definition setError (e : option string) : M unit :=
  fun s => (Ok tt, mkAppState (alarms s) (storage s) e (notifier s)).

Definition setAlarms (f : list Alarm -> list Alarm) : M unit :=
  fun s => (Ok tt, mkAppState (f (alarms s)) (storage s) (error s) (notifier s)).

Definition setStorage (l : list Alarm) : M unit :=
  fun s => (Ok tt, mkAppState (alarms s) l (error s) (notifier s)).

Definition liftN {A} (c : Notifier -> result A * Notifier) : M A :=
  fun s => let (r, n') := c (notifier s) in
           (r, mkAppState (alarms s) (storage s) (error s) n').

(* ------------------------------------------------------------------ *)
(** ** expo-notifications *)

Definition scheduleNotificationAsync (data : NotificationData) (triggerDate : Z)
    (n : Notifier) : result NotificationId * Notifier :=
  let accept rest :=
    (Ok (nextIdentifier n),
     mkNotifier (scheduled n ++ [mkScheduled (nextIdentifier n) data triggerDate])
                (S (nextIdentifier n)) rest) in
  match scheduleOutcomes n with
  | false :: rest => (Err "scheduleNotificationAsync rejected",
                      mkNotifier (scheduled n) (nextIdentifier n) rest)
  | true :: rest => accept rest
  | [] => accept []
  end.

(** Cancelling an unknown identifier is a no-op. *)
Definition cancelScheduledNotificationAsync (nid : NotificationId) (n : Notifier)
  : result unit * Notifier :=
  (Ok tt, mkNotifier (List.filter (fun r => negb (Nat.eqb (sn_identifier r) nid))
                                  (scheduled n))
                     (nextIdentifier n) (scheduleOutcomes n)).

(* ------------------------------------------------------------------ *)
(** ** NotificationService.ts *)

Definition NotificationService_scheduleNotification (data : NotificationData)
    (triggerDate : Z) : M NotificationId :=
  catch (liftN (scheduleNotificationAsync data triggerDate))
        (fun _ => throw "Failed to schedule notification").

Definition NotificationService_cancelNotification (nid : NotificationId) : M unit :=
  catch (liftN (cancelScheduledNotificationAsync nid))
        (fun _ => throw "Failed to cancel notification").

(** A delivered notification as the handler sees it: its identifier, its
    [content.data] and the [date] of its trigger when it has one. *)
Record Notification := mkNotification {
  n_identifier : NotificationId;
  n_data : NotificationData;
  n_triggerDate : option Z
}.

Record NotificationBehavior := mkNotificationBehavior {
  shouldShowAlert : bool;
  shouldPlaySound : bool;
  shouldSetBadge : bool;
  shouldShowBanner : bool;
  shouldShowList : bool
}.

Definition TOLERANCE_SECONDS : Q := 30.

(** [handleNotification] of the handler set in [NotificationService.initialize];
    [timeDiffSeconds = (scheduledTime - now) / 1000] is computed exactly in [Q]. *)
Definition handleNotification (notification : Notification) (now : Z)
  : NotificationBehavior :=
  let scheduledAt :=
    match nd_scheduledAt (n_data notification) with
    | Some t => Some t
    | None => n_triggerDate notification
    end in
  let shouldShow :=
    match scheduledAt with
    | Some scheduledTime =>
        let timeDiffSeconds := Qmake (scheduledTime - now) 1000 in
        if negb (Qle_bool timeDiffSeconds TOLERANCE_SECONDS) then false else true
    | None => true
    end in
  mkNotificationBehavior shouldShow shouldShow shouldShow shouldShow shouldShow.

(** The platform invoking the foreground handler at [now]. The handler and
    the received-listener of [useNotificationListener] (which only logs) are
    all the code that runs; neither touches the alarm state. *)
Definition deliverNotification (notification : Notification) (now : Z)
  : AppState -> NotificationBehavior * AppState :=
  fun s => (handleNotification notification now, s).

(* ------------------------------------------------------------------ *)
(** ** SchedulerService.ts *)

Definition calculateNextTrigger (alarm : Alarm) (now : Z) : M Z :=
  catch (match getNextAlarmTime (time alarm) (repeats alarm) now with
         | Ok t => ret t
         | Err e => throw e
         end)
        (fun _ => throw "Failed to calculate next alarm trigger time").

(** The title and body texts (including [getAlarmDescription], which catches
    its own errors) do not affect scheduling and are left out. *)
Definition scheduleAlarm (alarm : Alarm) (now : Z) : M NotificationId :=
  catch (let* nextTriggerTime := calculateNextTrigger alarm now in
         let notificationData :=
           mkNotificationData (id alarm) false (label alarm) None in
         NotificationService_scheduleNotification notificationData nextTriggerTime)
        (fun _ => throw "Failed to schedule alarm").

(** [if (!notificationId) return]: identifiers are never empty here. *)
Definition cancelAlarm (nid : NotificationId) : M unit :=
  catch (NotificationService_cancelNotification nid)
        (fun _ => throw "Failed to cancel alarm").

Definition scheduleSnooze (originalAlarm : Alarm) (snoozeDurationMinutes : Z)
    (now : Z) : M NotificationId :=
  catch (let snoozeTime := now + snoozeDurationMinutes * 60 * 1000 in
         let notificationData :=
           mkNotificationData (id originalAlarm) true (label originalAlarm) None in
         NotificationService_scheduleNotification notificationData snoozeTime)
        (fun _ => throw "Failed to schedule snooze").

Definition rescheduleRepeatingAlarm (alarm : Alarm) (now : Z)
  : M (option NotificationId) :=
  catch (match repeats alarm with
         | [] => ret None
         | _ => if negb (isEnabled alarm) then ret None
                else let* nid := scheduleAlarm alarm now in ret (Some nid)
         end)
        (fun _ => throw "Failed to reschedule repeating alarm").

(** The [for] loop of [rescheduleAllAlarms] with its per-alarm [try/catch]. *)
Fixpoint rescheduleLoop (enabledAlarms : list Alarm) (now : Z)
    (results : gmap string NotificationId) : M (gmap string NotificationId) :=
  match enabledAlarms with
  | [] => ret results
  | alarm :: rest =>
      let* results' :=
        catch (let* nid := scheduleAlarm alarm now in
               ret (<[id alarm := nid]> results))
              (fun _ => ret results) in
      rescheduleLoop rest now results'
  end.

Definition rescheduleAllAlarms (alarmList : list Alarm) (now : Z)
  : M (gmap string NotificationId) :=
  catch (rescheduleLoop (List.filter isEnabled alarmList) now ∅)
        (fun _ => throw "Failed to reschedule all alarms").

(* ------------------------------------------------------------------ *)
(** ** StorageService.ts (AsyncStorage calls succeed) *)

Definition Storage_addAlarm (alarm : Alarm) : M unit :=
  let* alarmList := bind get (fun s => ret (storage s)) in
  setStorage (alarmList ++ [alarm]).

(** [alarms[index] = { ...updatedAlarm, updatedAt: now }] at the first index
    with the same id. *)
Fixpoint replace_first (alarmList : list Alarm) (updated : Alarm)
  : option (list Alarm) :=
  match alarmList with
  | [] => None
  | a :: rest =>
      if String.eqb (id a) (id updated) then Some (updated :: rest)
      else option_map (cons a) (replace_first rest updated)
  end.

(** [StorageService.updateAlarm]; [now] is the instant of its own
    [new Date()], which callers identify with the instant of their operation
    (one instant per operation, as in the header). *)
Definition Storage_updateAlarm (updatedAlarm : Alarm) (now : Z) : M unit :=
  catch (let* alarmList := bind get (fun s => ret (storage s)) in
         match replace_first alarmList (set_updatedAt updatedAlarm now) with
         | None => throw "Alarm not found"
         | Some l => setStorage l
         end)
        (fun _ => throw "Failed to update alarm in storage").

(* ------------------------------------------------------------------ *)
(** ** AlarmContext.tsx *)

Definition findAlarm (alarmId : string) (l : list Alarm) : option Alarm :=
  List.find (fun a => String.eqb (id a) alarmId) l.

(** [getAlarmById]. *)
Definition getAlarmById (alarmId : string) : M (option Alarm) :=
  bind get (fun s => ret (findAlarm alarmId (alarms s))).

(** [alarms.find(a => a.id === id)], throwing when absent. *)
Definition findOrThrow (alarmId : string) : M Alarm :=
  let* found := getAlarmById alarmId in
  match found with
  | Some a => ret a
  | None => throw "Alarm not found"
  end.

(** The new record; [newId] is the generated [alarm-<Date.now()>-<random>]. *)
Definition alarm_of_input (input : AlarmInput) (newId : string) (now : Z) : Alarm :=
  mkAlarm newId (in_label input) (in_description input) (in_time input)
    (in_repeats input) (in_isEnabled input) (in_soundUri input)
    (in_snoozeEnabled input) (in_snoozeDuration input) None now now.

Definition addAlarm (alarmInput : AlarmInput) (newId : string) (now : Z) : M unit :=
  catch (let* _ := setError None in
         let newAlarm := alarm_of_input alarmInput newId now in
         let* newAlarm :=
           if isEnabled newAlarm then
             catch (let* nid := scheduleAlarm newAlarm now in
                    ret (set_notificationId newAlarm (Some nid)))
                   (fun _ => throw "Failed to schedule alarm notification")
           else ret newAlarm in
         let* _ := Storage_addAlarm newAlarm in
         let* _ := setAlarms (fun prev => prev ++ [newAlarm]) in
         ret tt)
        (fun err => let* _ := setError (Some "Failed to add alarm") in throw err).

Definition is_some {A} (o : option A) : bool :=
  match o with Some _ => true | None => false end.

Definition needsReschedule (updates : AlarmUpdate) : bool :=
  is_some (u_time updates) || is_some (u_repeats updates) ||
  is_some (u_isEnabled updates) || is_some (u_soundUri updates).

Definition cancelIfAny (n : option NotificationId) : M unit :=
  match n with
  | Some nid => cancelAlarm nid
  | None => ret tt
  end.

Definition replaceById (alarmId : string) (updated : Alarm) (l : list Alarm)
  : list Alarm :=
  map (fun a => if String.eqb (id a) alarmId then updated else a) l.

(** [updateAlarm] as taken from the render that shows the current list: its
    captured [alarms] is the live list, so [alarms.find] reads the state
    ([updateAlarm_cb_current] below relates it to the general callback
    [updateAlarm_cb]). *)
Definition updateAlarm (alarmId : string) (updates : AlarmUpdate) (now : Z)
  : M unit :=
  catch (let* _ := setError None in
         let* existingAlarm := findOrThrow alarmId in
         let updatedAlarm := applyUpdates existingAlarm updates now in
         let* updatedAlarm :=
           if needsReschedule updates then
             let* _ := cancelIfAny (notificationId existingAlarm) in
             if isEnabled updatedAlarm then
               let* nid := scheduleAlarm updatedAlarm now in
               ret (set_notificationId updatedAlarm (Some nid))
             else ret (set_notificationId updatedAlarm None)
           else ret updatedAlarm in
         let* _ := Storage_updateAlarm updatedAlarm now in
         let* _ := setAlarms (replaceById alarmId updatedAlarm) in
         ret tt)
        (fun err => let* _ := setError (Some "Failed to update alarm") in throw err).

(** [alarms.find(a => a.id === id)] over a captured list, throwing when
    absent. *)
Definition findInCaptured (captured : list Alarm) (alarmId : string) : M Alarm :=
  match findAlarm alarmId captured with
  | Some a => ret a
  | None => throw "Alarm not found"
  end.

(** The [updateAlarm] callback of [useCallback(..., [alarms])] created at a
    render whose [alarms] state was [captured]: [existingAlarm] is looked up
    in [captured], while [setAlarms(prev => ...)] and the storage and
    notifier calls act on the current state. *)
Definition updateAlarm_cb (captured : list Alarm) (alarmId : string)
    (updates : AlarmUpdate) (now : Z) : M unit :=
  catch (let* _ := setError None in
         let* existingAlarm := findInCaptured captured alarmId in
         let updatedAlarm := applyUpdates existingAlarm updates now in
         let* updatedAlarm :=
           if needsReschedule updates then
             let* _ := cancelIfAny (notificationId existingAlarm) in
             if isEnabled updatedAlarm then
               let* nid := scheduleAlarm updatedAlarm now in
               ret (set_notificationId updatedAlarm (Some nid))
             else ret (set_notificationId updatedAlarm None)
           else ret updatedAlarm in
         let* _ := Storage_updateAlarm updatedAlarm now in
         let* _ := setAlarms (replaceById alarmId updatedAlarm) in
         ret tt)
        (fun err => let* _ := setError (Some "Failed to update alarm") in throw err).

Definition toggleAlarm (alarmId : string) (now : Z) : M unit :=
  catch (let* _ := setError None in
         let* alarm := findOrThrow alarmId in
         updateAlarm alarmId (update_isEnabled (negb (isEnabled alarm))) now)
        (fun err => let* _ := setError (Some "Failed to toggle alarm") in throw err).

(* ------------------------------------------------------------------ *)
(** ** App.tsx: notification-response handlers

    [useNotificationListener] first dismisses the presented notification
    (the tray entry, not a scheduled request) and then calls these. *)

Definition onSnooze (alarmId : string) (now : Z) : M unit :=
  catch (let* found := getAlarmById alarmId in
         match found with
         | None => ret tt
         | Some alarm =>
             if negb (snoozeEnabled alarm) then ret tt
             else
               let* _ := cancelIfAny (notificationId alarm) in
               let* nid := scheduleSnooze alarm (snoozeDuration alarm) now in
               updateAlarm alarmId (update_notificationId (Some nid)) now
         end)
        (fun _ => ret tt).

Definition onDismiss (alarmId : string) (now : Z) : M unit :=
  catch (let* found := getAlarmById alarmId in
         match found with
         | None => ret tt
         | Some alarm =>
             let* _ := cancelIfAny (notificationId alarm) in
             match repeats alarm with
             | _ :: _ =>
                 let* nid := rescheduleRepeatingAlarm alarm now in
                 match nid with
                 | Some n => updateAlarm alarmId (update_notificationId (Some n)) now
                 | None => ret tt
                 end
             | [] =>
                 updateAlarm alarmId
                   (mkAlarmUpdate None None None None (Some false) None None None
                                  (Some None)) now
             end
         end)
        (fun _ => ret tt).

(* ------------------------------------------------------------------ *)
(** ** timeCalculations.ts: display helpers *)

(** The decimal digits of [n >= 0] in front of [acc]; [fuel] bounds the
    number of digits. *)
Fixpoint decimal_digits (fuel : nat) (n : Z) (acc : string) : string :=
  match fuel with
  | O => acc
  | S f =>
      let acc' := String (Ascii.ascii_of_nat (48 + Z.to_nat (n mod 10))) acc in
      if n <? 10 then acc' else decimal_digits f (n / 10) acc'
  end.

(** [n.toString()] of an integer-valued number. *)
Definition number_toString (n : Z) : string :=
  let fuel := S (Z.to_nat (Z.log2 (Z.abs n))) in
  if n <? 0 then String "-"%char (decimal_digits fuel (- n) EmptyString)
  else decimal_digits fuel n EmptyString.

(** [s.padStart(2, '0')]. *)
Definition padStart2 (s : string) : string :=
  match String.length s with
  | O => "00"
  | 1%nat => String "0"%char s
  | _ => s
  end.

(** [date.getHours()] and [date.getMinutes()] in the fixed-offset local time. *)
Definition getHours (t : Z) : Z := (t mod MS_PER_DAY) / MS_PER_HOUR.
Definition getMinutes (t : Z) : Z := (t mod MS_PER_HOUR) / MS_PER_MINUTE.

Definition isAlarmDueToday (time : string) (now : Z) : bool :=
  match parseTimeString time with
  | Err _ => false
  | Ok (hours, minutes) =>
      let alarmTime := setHours now hours minutes in
      alarmTime >? now
  end.

Definition formatAlarmTime (time : string) (use24Hour : bool) : string :=
  match parseTimeString time with
  | Err _ => time
  | Ok (hours, minutes) =>
      if use24Hour then
        padStart2 (number_toString hours) ++ ":" ++ padStart2 (number_toString minutes)
      else
        let period := if hours >=? 12 then "PM" else "AM" in
        let displayHours :=
          if hours =? 0 then 12 else if hours >? 12 then hours - 12 else hours in
        number_toString displayHours ++ ":" ++ padStart2 (number_toString minutes)
          ++ " " ++ period
  end.

Definition formatDateToTime (date : Z) : string :=
  let hours := getHours date in
  let minutes := getMinutes date in
  padStart2 (number_toString hours) ++ ":" ++ padStart2 (number_toString minutes).

(** [getCurrentTimeString()], the default time of a new alarm in the edit
    screen. *)
Definition getCurrentTimeString (now : Z) : string := formatDateToTime now.

(** [NUMBER_TO_WEEKDAY] as the strings the source maps to. *)
Definition WeekDay_to_string (d : WeekDay) : string :=
  match d with
  | Mon => "Mon" | Tue => "Tue" | Wed => "Wed" | Thu => "Thu"
  | Fri => "Fri" | Sat => "Sat" | Sun => "Sun"
  end.

(** [date.toDateString()] names the local calendar day; it is represented by
    the day number, which determines it and which it determines. *)
Definition toDateString (t : Z) : Z := t / MS_PER_DAY.

Definition getAlarmDescription (alarm : Alarm) (now : Z) : string :=
  match getNextAlarmTime (time alarm) (repeats alarm) now with
  | Err _ => formatAlarmTime (time alarm) false
  | Ok nextTime =>
      let tomorrow := addDays now 1 in
      let isToday := toDateString nextTime =? toDateString now in
      let isTomorrow := toDateString nextTime =? toDateString tomorrow in
      let timeStr := formatAlarmTime (time alarm) false in
      if isToday then "Today at " ++ timeStr
      else if isTomorrow then "Tomorrow at " ++ timeStr
      else WeekDay_to_string (NUMBER_TO_WEEKDAY (getDay nextTime)) ++ " at " ++ timeStr
  end.

Record TimeRemaining := mkTimeRemaining {
  tr_hours : Z;
  tr_minutes : Z;
  tr_total : Z
}.

Definition getTimeRemaining (alarm : Alarm) (now : Z) : TimeRemaining :=
  match getNextAlarmTime (time alarm) (repeats alarm) now with
  | Err _ => mkTimeRemaining 0 0 0
  | Ok nextTime =>
      let diffMs := nextTime - now in
      if diffMs <=? 0 then mkTimeRemaining 0 0 0
      else
        let totalMinutes := diffMs / (1000 * 60) in
        mkTimeRemaining (totalMinutes / 60) (totalMinutes mod 60) totalMinutes
  end.

(* ------------------------------------------------------------------ *)
(** ** SchedulerService.ts: rescheduleAlarm and validateAlarm *)

Definition rescheduleAlarm (alarm : Alarm) (now : Z) : M NotificationId :=
  catch (let* _ := cancelIfAny (notificationId alarm) in
         let* newNotificationId := scheduleAlarm alarm now in
         ret newNotificationId)
        (fun _ => throw "Failed to reschedule alarm").

(** [String.prototype.trimEnd] over the same white space as [trimStart]. *)
Fixpoint trimEnd (s : string) : string :=
  match s with
  | EmptyString => EmptyString
  | String c rest =>
      match trimEnd rest with
      | EmptyString => if is_js_space c then EmptyString else String c EmptyString
      | r => String c r
      end
  end.

Definition trim (s : string) : string := trimEnd (trimStart s).

(** [calculateNextTrigger] is synchronous here: it throws exactly when
    [getNextAlarmTime] does, and [validateAlarm] catches that. *)
Definition validateAlarm (alarm : Alarm) (now : Z) : bool :=
  if negb (isEnabled alarm) then false
  else if String.eqb (time alarm) EmptyString || String.eqb (trim (time alarm)) EmptyString
  then false
  else match getNextAlarmTime (time alarm) (repeats alarm) now with
       | Ok _ => true
       | Err _ => false
       end.

(** ** StorageService.ts: reads, deletion and settings *)

(** [getAlarms]: a missing key reads as [[]], which is how an empty store
    is represented. *)
Definition Storage_getAlarms : M (list Alarm) :=
  catch (bind get (fun s => ret (storage s)))
        (fun _ => throw "Failed to retrieve alarms from storage").



(** [removeItem(ALARMS)]: the next [getAlarms] reads [[]]. *)
Definition Storage_clearAllAlarms : M unit :=
  catch (setStorage []) (fun _ => throw "Failed to clear alarms from storage").











(** ** AlarmContext.tsx: loadAlarms and deleteAlarm *)

(** The [loading] flag is not modelled. *)
Definition loadAlarms : M unit :=
  catch (let* _ := setError None in
         let* storedAlarms := Storage_getAlarms in
         setAlarms (fun _ => storedAlarms))
        (fun _ => setError (Some "Failed to load alarms")).


(** ** WeekDayPicker and AlarmCard *)

Definition WEEK_DAYS : list WeekDay := [Mon; Tue; Wed; Thu; Fri; Sat; Sun].

(** [selectedDays.includes(day)]. *)
Definition includes (l : list WeekDay) (day : WeekDay) : bool :=
  existsb (WeekDay_eqb day) l.

Definition toggleDay (selectedDays : list WeekDay) (day : WeekDay) : list WeekDay :=
  if includes selectedDays day
  then List.filter (fun d => negb (WeekDay_eqb d day)) selectedDays
  else selectedDays ++ [day].

(** What [renderRepeatDays] returns: a text, or one badge per day of
    [WEEK_DAYS] with its letter and whether it is active. *)
Inductive RepeatView :=
| RepeatText (text : string)
| DayBadges (badges : list (Ascii.ascii * bool)).

Definition charAt0 (s : string) : Ascii.ascii :=
  match s with String c _ => c | EmptyString => " "%char end.

Definition renderRepeatDays (r : list WeekDay) : RepeatView :=
  if Nat.eqb (length r) 0 then RepeatText "One-time alarm"
  else if Nat.eqb (length r) 7 then RepeatText "Every day"
  else
    let weekdays := [Mon; Tue; Wed; Thu; Fri] in
    let isWeekdays := Nat.eqb (length r) 5 && forallb (includes r) weekdays in
    if isWeekdays then RepeatText "Weekdays"
    else
      let weekends := [Sat; Sun] in
      let isWeekends := Nat.eqb (length r) 2 && forallb (includes r) weekends in
      if isWeekends then RepeatText "Weekends"
      else DayBadges (map (fun day => (charAt0 (WeekDay_to_string day), includes r day))
                          WEEK_DAYS).

(* ------------------------------------------------------------------ *)
(** ** Properties of alarm records *)

(** [pendingTrigger.isSome() <-> enabled]. *)
Definition trigger_matches_enabled (a : Alarm) : bool :=
  Bool.eqb (is_some (notificationId a)) (isEnabled a).

(** The pending requests owned by an alarm ([data.alarmId]). *)
Definition liveFor (alarmId : string) (n : Notifier) : list NotificationId :=
  map sn_identifier
      (List.filter (fun r => String.eqb (nd_alarmId (sn_data r)) alarmId) (scheduled n)).

Definition option_to_list {A} (o : option A) : list A :=
  match o with Some x => [x] | None => [] end.

(** The request list after [cancelScheduledNotificationAsync] of an
    optional identifier. *)
Definition cancelled (o : option NotificationId) (l : list ScheduledNotification) :=
  match o with
  | Some t => List.filter (fun r => negb (Nat.eqb (sn_identifier r) t)) l
  | None => l
  end.

(** The effect of a successful [updateAlarm] on the record [e] found and the
    notifier: with [needsReschedule], the old token is cancelled and, when the
    merged record is enabled, one request is registered under the next
    identifier; otherwise the merged record is stored and the notifier is
    untouched. *)
Definition updated_by (e : Alarm) (u : AlarmUpdate) (now : Z) (N N' : Notifier)
    (upd : Alarm) : Prop :=
  if needsReschedule u then
    let base := applyUpdates e u now in
    (exists trig, scheduled N' = cancelled (notificationId e) (scheduled N) ++
      (if isEnabled base then
         [mkScheduled (nextIdentifier N)
            (mkNotificationData (id e) false (label base) None) trig]
       else [])) /\
    nextIdentifier N' = (if isEnabled base then S (nextIdentifier N) else nextIdentifier N) /\
    upd = set_notificationId base
            (if isEnabled base then Some (nextIdentifier N) else None)
  else upd = applyUpdates e u now /\ N' = N.

(** Every pending identifier was handed out before [nextIdentifier]. *)
Definition fresh (N : Notifier) : Prop :=
  Forall (fun r => (sn_identifier r < nextIdentifier N)%nat) (scheduled N).

(** The identifiers of all pending requests. *)
Definition identifiers (N : Notifier) : list NotificationId :=
  map sn_identifier (scheduled N).

(** Every alarm of the in-memory list has a token exactly when enabled. *)
Definition Inv (s : AppState) : Prop := forallb trigger_matches_enabled (alarms s) = true.

(** The instant the handler compares [now] against: [data.scheduledAt], or
    else the trigger date. *)
Definition expectedTriggerAt (n : Notification) : option Z :=
  match nd_scheduledAt (n_data n) with
  | Some t => Some t
  | None => n_triggerDate n
  end.

(** The [scheduleAlarm] calls made by the loop of [rescheduleAllAlarms], in
    order, each alarm with its outcome, and the final state. *)
Fixpoint scheduleAttempts (alarmList : list Alarm) (now : Z) (s : AppState)
  : list (Alarm * result NotificationId) * AppState :=
  match alarmList with
  | [] => ([], s)
  | a :: rest =>
      let (r, s1) := scheduleAlarm a now s in
      let (tr, s2) := scheduleAttempts rest now s1 in
      ((a, r) :: tr, s2)
  end.

(** The map built from the successful attempts. *)
Fixpoint results_of (attempts : list (Alarm * result NotificationId))
    (acc : gmap string NotificationId) : gmap string NotificationId :=
  match attempts with
  | [] => acc
  | (a, Ok n) :: rest => results_of rest (<[id a := n]> acc)
  | (_, Err _) :: rest => results_of rest acc
  end.

(* ------------------------------------------------------------------ *)
(** ** Concrete scenarios *)

(** One alarm ["a1"] at 07:30; with a token [t], the notifier holds one
    request [t] for it, and the next identifier is 1. *)
Definition demo_alarm (enabled : bool) (token : option NotificationId) : Alarm :=
  mkAlarm "a1" "wake" None "07:30" [] enabled "bell" true 10 token 0 0.

Definition demo_state (enabled : bool) (token : option NotificationId) : AppState :=
  let a := demo_alarm enabled token in
  mkAppState [a] [a] None
    (mkNotifier (match token with
                 | Some t => [mkScheduled t (mkNotificationData "a1" false "wake" None) 27000000]
                 | None => []
                 end) 1%nat []).

Definition update_time (t : string) : AlarmUpdate :=
  mkAlarmUpdate None None (Some t) None None None None None None.

Definition update_soundUri (x : string) : AlarmUpdate :=
  mkAlarmUpdate None None None None None (Some x) None None None.

Definition update_snoozeDuration (d : Z) : AlarmUpdate :=
  mkAlarmUpdate None None None None None None None (Some d) None.

Definition demo_s0 : AppState := demo_state true (Some 0%nat).

Definition demo_s1 : AppState := snd (updateAlarm "a1" (update_time "08:00") 100 demo_s0).

Definition demo_s2 : AppState := snd (updateAlarm "a1" (update_time "09:00") 200 demo_s1).

(** An enabled alarm input, and an empty store whose notifier refuses its
    next request. *)
Definition demo_input : AlarmInput := mkAlarmInput "wake" None "07:30" [] true "bell" true 10.

Definition refusing_state : AppState := mkAppState [] [] None (mkNotifier [] 0%nat [false]).

(** A notification for 2025-10-20 10:00 UTC. *)
Definition early_fire : Notification :=
  mkNotification 0%nat (mkNotificationData "a1" false "wake" None) (Some 1760954400000).

(** An enabled alarm with an invalid time, a disabled one and a valid one. *)
Definition mixed_alarms : list Alarm :=
  [mkAlarm "bad" "broken" None "25:00" [] true "bell" true 10 None 0 0;
   mkAlarm "off" "off" None "06:00" [] false "bell" true 10 None 0 0;
   mkAlarm "good" "wake" None "07:30" [] true "bell" true 10 None 0 0].

(* ------------------------------------------------------------------ *)
(** ** Auxiliary definitions of the display and state properties *)

(** The 24-hour text of an hour and a minute. *)
Definition format24 (h m : Z) : string :=
  padStart2 (number_toString h) ++ ":" ++ padStart2 (number_toString m).

(** [s] parses to exactly [(h, m)]. *)
Definition parses_to (s : string) (h m : Z) : bool :=
  match parseTimeString s with Ok (h', m') => (h' =? h) && (m' =? m) | Err _ => false end.

(** The 12-hour text of an hour and a minute, and a reading of it back. *)
Definition format12 (h m : Z) : string :=
  let period := if h >=? 12 then "PM" else "AM" in
  let displayHours := if h =? 0 then 12 else if h >? 12 then h - 12 else h in
  number_toString displayHours ++ ":" ++ padStart2 (number_toString m) ++ " " ++ period.

Definition ends_with_PM (s : string) : bool :=
  match rev (list_ascii_of_string s) with
  | c1 :: c2 :: _ => Ascii.eqb c1 "M"%char && Ascii.eqb c2 "P"%char
  | _ => false
  end.

Definition read12 (s : string) : option (Z * Z) :=
  match parseTimeString s with
  | Ok (dh, m) =>
      Some (if ends_with_PM s then (if dh =? 12 then 12 else dh + 12)
            else (if dh =? 12 then 0 else dh), m)
  | Err _ => None
  end.

Definition reads12_to (s : string) (h m : Z) : bool :=
  match read12 s with Some (h', m') => (h' =? h) && (m' =? m) | None => false end.

(** The React list and the AsyncStorage list agree and the ids are unique. *)
Definition Sync (s : AppState) : Prop :=
  alarms s = storage s /\ List.NoDup (map id (alarms s)).


(** An enabled one-time alarm holding token 0, with a notifier that refuses
    its next request. *)
Definition refusing_token_state : AppState :=
  let a := demo_alarm true (Some 0%nat) in
  mkAppState [a] [a] None
    (mkNotifier [mkScheduled 0%nat (mkNotificationData "a1" false "wake" None) 27000000] 1%nat [false]).

(** The same with an alarm repeating on Mondays and Fridays. *)
Definition repeating_alarm : Alarm :=
  mkAlarm "a1" "wake" None "07:30" [Mon; Fri] true "bell" true 10 (Some 0%nat) 0 0.

Definition repeating_refusing_state : AppState :=
  mkAppState [repeating_alarm] [repeating_alarm] None
    (mkNotifier [mkScheduled 0%nat (mkNotificationData "a1" false "wake" None) 27000000] 1%nat [false]).


(* ================================================================== *)
(** * Theorems *)

(** ** Calendar arithmetic *)

Lemma parseTimeString_range (time : string) (h m : Z) :
  parseTimeString time = Ok (h, m) -> 0 <= h <= 23 /\ 0 <= m <= 59.
Proof.
  unfold parseTimeString.
  destruct (parseInt (split_colon time !! 0%nat)) as [h0|],
    (parseInt (split_colon time !! 1%nat)) as [m0|]; try discriminate.
  destruct (h0 <? 0) eqn:E1, (h0 >? 23) eqn:E2, (m0 <? 0) eqn:E3, (m0 >? 59) eqn:E4;
    simpl; try discriminate.
  intros H; inversion H; subst.
  rewrite Z.ltb_ge in E1, E3. rewrite Z.gtb_ltb, Z.ltb_ge in E2, E4. lia.
Qed.

Lemma time_offset_bounds (h m : Z) :
  0 <= h <= 23 -> 0 <= m <= 59 ->
  0 <= h * MS_PER_HOUR + m * MS_PER_MINUTE < MS_PER_DAY.
Proof. unfold MS_PER_HOUR, MS_PER_MINUTE, MS_PER_DAY. lia. Qed.

Lemma setHours_split (t h m : Z) :
  setHours t h m = (t / MS_PER_DAY) * MS_PER_DAY + (h * MS_PER_HOUR + m * MS_PER_MINUTE).
Proof. unfold setHours. lia. Qed.

Lemma day_start_bounds (t : Z) :
  (t / MS_PER_DAY) * MS_PER_DAY <= t < (t / MS_PER_DAY) * MS_PER_DAY + MS_PER_DAY.
Proof.
  pose proof (Z.div_mod t MS_PER_DAY ltac:(unfold MS_PER_DAY; lia)).
  pose proof (Z.mod_pos_bound t MS_PER_DAY ltac:(unfold MS_PER_DAY; lia)).
  lia.
Qed.

Lemma setHours_div (t h m : Z) :
  0 <= h <= 23 -> 0 <= m <= 59 ->
  setHours t h m / MS_PER_DAY = t / MS_PER_DAY.
Proof.
  intros Hh Hm. rewrite setHours_split.
  rewrite Z.div_add_l by (unfold MS_PER_DAY; lia).
  rewrite (Z.div_small (h * MS_PER_HOUR + m * MS_PER_MINUTE)) by
    (apply time_offset_bounds; assumption).
  lia.
Qed.

Lemma addDays_div (t k : Z) : addDays t k / MS_PER_DAY = t / MS_PER_DAY + k.
Proof. unfold addDays. rewrite Z.div_add by (unfold MS_PER_DAY; lia). reflexivity. Qed.

Lemma setHours_addDays (t k h m : Z) :
  setHours (addDays t k) h m = addDays (setHours t h m) k.
Proof. unfold setHours. rewrite addDays_div. unfold addDays. lia. Qed.

Lemma getDay_setHours (t h m : Z) :
  0 <= h <= 23 -> 0 <= m <= 59 -> getDay (setHours t h m) = getDay t.
Proof. intros. unfold getDay. rewrite setHours_div by assumption. reflexivity. Qed.

Lemma getDay_addDays (t k : Z) : getDay (addDays t k) = (getDay t + k) mod 7.
Proof.
  unfold getDay. rewrite addDays_div, Zplus_mod_idemp_l. f_equal. lia.
Qed.

Lemma getDay_range (t : Z) : 0 <= getDay t < 7.
Proof. unfold getDay. apply Z.mod_pos_bound. lia. Qed.

Lemma NUMBER_TO_WEEKDAY_TO_NUMBER (d : WeekDay) :
  NUMBER_TO_WEEKDAY (WEEKDAY_TO_NUMBER d) = d.
Proof. destruct d; reflexivity. Qed.

Lemma WeekDay_eqb_eq (x y : WeekDay) : WeekDay_eqb x y = true <-> x = y.
Proof. destruct x, y; simpl; split; congruence. Qed.

(** The weekday of a [getNextWeekdayOccurrence] result is its [day]. *)
Lemma getNextWeekdayOccurrence_weekday (day : WeekDay) (time : string) (now t : Z) :
  getNextWeekdayOccurrence day time now = Ok t ->
  NUMBER_TO_WEEKDAY (getDay t) = day.
Proof.
  unfold getNextWeekdayOccurrence.
  destruct (parseTimeString time) as [[h m]|] eqn:Hp; [|discriminate].
  apply parseTimeString_range in Hp as [Hh Hm].
  pose proof (getDay_range now) as Hr.
  assert (Hd : forall k, getDay (setHours (addDays now k) h m) = (getDay now + k) mod 7).
  { intros k. rewrite getDay_setHours, getDay_addDays by assumption. reflexivity. }
  assert (Ht : 0 <= WEEKDAY_TO_NUMBER day < 7) by (destruct day; simpl; lia).
  destruct (WEEKDAY_TO_NUMBER day - getDay now =? 0) eqn:E0.
  - apply Z.eqb_eq in E0.
    destruct (setHours now h m >? now); intros H; inversion H; subst.
    + rewrite getDay_setHours by assumption.
      replace (getDay now) with (WEEKDAY_TO_NUMBER day) by lia.
      apply NUMBER_TO_WEEKDAY_TO_NUMBER.
    + rewrite Hd.
      replace ((getDay now + 7) mod 7) with (WEEKDAY_TO_NUMBER day).
      * apply NUMBER_TO_WEEKDAY_TO_NUMBER.
      * rewrite <- (Z.mod_small (WEEKDAY_TO_NUMBER day) 7) by lia.
        replace (getDay now + 7) with (WEEKDAY_TO_NUMBER day + 1 * 7) by lia.
        rewrite Z.mod_add by lia. reflexivity.
  - destruct (WEEKDAY_TO_NUMBER day - getDay now <? 0) eqn:En;
      intros H; inversion H; subst; rewrite Hd.
    + replace (getDay now + (WEEKDAY_TO_NUMBER day - getDay now + 7))
        with (WEEKDAY_TO_NUMBER day + 1 * 7) by lia.
      rewrite Z.mod_add, Z.mod_small by lia. apply NUMBER_TO_WEEKDAY_TO_NUMBER.
    + replace (getDay now + (WEEKDAY_TO_NUMBER day - getDay now))
        with (WEEKDAY_TO_NUMBER day) by lia.
      rewrite Z.mod_small by lia. apply NUMBER_TO_WEEKDAY_TO_NUMBER.
Qed.

Lemma getNextWeekdayOccurrence_ok (day : WeekDay) (time : string) (now h m : Z) :
  parseTimeString time = Ok (h, m) ->
  exists t, getNextWeekdayOccurrence day time now = Ok t.
Proof.
  intros Hp. unfold getNextWeekdayOccurrence. rewrite Hp.
  repeat match goal with |- context [if ?b then _ else _] => destruct b end; eauto.
Qed.

(** Every value kept by the loop is the occurrence of one of the days seen. *)
Lemma nextOccurrenceLoop_weekday (all repeats : list WeekDay) (time : string)
    (now h m : Z) (acc : option Z) :
  parseTimeString time = Ok (h, m) ->
  (forall d, In d repeats -> In d all) ->
  (forall a, acc = Some a -> In (NUMBER_TO_WEEKDAY (getDay a)) all) ->
  (acc <> None \/ repeats <> []) ->
  exists t, nextOccurrenceLoop repeats time now acc = Ok (Some t) /\
            In (NUMBER_TO_WEEKDAY (getDay t)) all.
Proof.
  revert acc. induction repeats as [|d rest IH]; intros acc Hp Hsub Hacc Hne; simpl.
  - destruct acc as [a|]; [|destruct Hne; congruence].
    exists a. split; [reflexivity | apply Hacc; reflexivity].
  - destruct (getNextWeekdayOccurrence_ok d time now h m Hp) as [occ Hocc].
    rewrite Hocc.
    pose proof (getNextWeekdayOccurrence_weekday d time now occ Hocc) as Hw.
    apply IH; [assumption | intros x Hx; apply Hsub; right; exact Hx | | left].
    + intros a Ha. destruct acc as [n|].
      * destruct (occ <? n); injection Ha as <-.
        -- rewrite Hw. apply Hsub. left. reflexivity.
        -- apply Hacc. reflexivity.
      * injection Ha as <-. rewrite Hw. apply Hsub. left. reflexivity.
    + destruct acc as [n|]; [destruct (occ <? n)|]; discriminate.
Qed.


(** ** Next trigger of a one-time alarm *)

(** C6: for a one-time alarm ([repeats = []]) with a valid time, the next
    trigger is strictly after [now] and at most 24 hours after it: today's
    [time] when that is strictly after [now], otherwise the same time one
    day later. *)
Theorem getNextAlarmTime_one_time (time : string) (h m now : Z) :
  parseTimeString time = Ok (h, m) ->
  exists t, getNextAlarmTime time [] now = Ok t /\
    now < t <= now + MS_PER_DAY /\
    t = (if setHours now h m >? now then setHours now h m
         else addDays (setHours now h m) 1).
Proof.
  intros Hp. pose proof (parseTimeString_range _ _ _ Hp) as [Hh Hm].
  unfold getNextAlarmTime. rewrite Hp.
  pose proof (time_offset_bounds h m Hh Hm).
  pose proof (day_start_bounds now).
  pose proof (setHours_split now h m).
  destruct (setHours now h m >? now) eqn:E.
  - exists (setHours now h m). rewrite Z.gtb_ltb, Z.ltb_lt in E.
    repeat split; [lia | lia].
  - exists (addDays (setHours now h m) 1). rewrite Z.gtb_ltb, Z.ltb_ge in E.
    unfold addDays. repeat split; lia.
Qed.

(** ** Next trigger of a repeating alarm *)

(** C7: for a valid time and a non-empty repeat set, the weekday of the
    computed next trigger belongs to the repeat set. *)
Theorem getNextAlarmTime_weekday_in_repeats (time : string) (h m : Z)
    (repeats : list WeekDay) (now : Z) :
  parseTimeString time = Ok (h, m) -> repeats <> [] ->
  exists t, getNextAlarmTime time repeats now = Ok t /\
            In (NUMBER_TO_WEEKDAY (getDay t)) repeats.
Proof.
  intros Hp Hne. pose proof (parseTimeString_range _ _ _ Hp) as [Hh Hm].
  unfold getNextAlarmTime. rewrite Hp.
  destruct repeats as [|d rest] eqn:Er; [congruence|]. rewrite <- Er.
  destruct (existsb (WeekDay_eqb (NUMBER_TO_WEEKDAY (getDay now))) repeats
            && (setHours now h m >? now)) eqn:E.
  - exists (setHours now h m). split; [reflexivity|].
    apply andb_true_iff in E as [E _].
    apply existsb_exists in E as [x [Hx Heq]]. apply WeekDay_eqb_eq in Heq.
    rewrite getDay_setHours by assumption. rewrite Heq. exact Hx.
  - destruct (nextOccurrenceLoop_weekday repeats repeats time now h m None Hp)
      as [t [Ht Hin]].
    + intros x Hx; exact Hx.
    + intros a Ha; discriminate.
    + right. rewrite Er. discriminate.
    + rewrite Ht. exists t. split; [reflexivity | exact Hin].
Qed.

(** C8: a repeat day equal to today's weekday whose time has already passed
    today yields the occurrence exactly 7 days out (never today); with
    [time = "09:00"], [repeats = [Mon]] and [now] = Monday 2025-10-20T10:00
    (1760954400000 ms), the next trigger is Monday 2025-10-27T09:00
    (1761555600000 ms). *)
Theorem getNextWeekdayOccurrence_today_passed (day : WeekDay) (time : string)
    (h m now : Z) :
  parseTimeString time = Ok (h, m) ->
  WEEKDAY_TO_NUMBER day = getDay now ->
  setHours now h m <= now ->
  getNextWeekdayOccurrence day time now = Ok (addDays (setHours now h m) 7) /\
  addDays (setHours now h m) 7 <> setHours now h m /\
  getNextAlarmTime "09:00" [Mon] 1760954400000 = Ok 1761555600000 /\
  getDay 1760954400000 = WEEKDAY_TO_NUMBER Mon /\
  getDay 1761555600000 = WEEKDAY_TO_NUMBER Mon.
Proof.
  intros Hp Hday Hpassed. split; [|split; [|split; [reflexivity | split; reflexivity]]].
  - unfold getNextWeekdayOccurrence. rewrite Hp, Hday, Z.sub_diag. simpl.
    rewrite Z.gtb_ltb. destruct (now <? setHours now h m) eqn:E.
    + apply Z.ltb_lt in E. lia.
    + rewrite setHours_addDays. reflexivity.
  - unfold addDays, MS_PER_DAY. lia.
Qed.

(** ** Time-string validation *)

(** C10: [parseTimeString] (hence [isValidTimeString]) accepts a string
    exactly when the leading numeric prefixes of its first two colon-separated
    pieces parse to an hour in [0,23] and a minute in [0,59]; it does not check
    the "HH:mm" shape, so "7:30abc" and "07:3x:59" are accepted. *)
Theorem isValidTimeString_prefix_only :
  (forall time : string,
     isValidTimeString time = true <->
     exists h m, parseInt (split_colon time !! 0%nat) = Some h /\
                 parseInt (split_colon time !! 1%nat) = Some m /\
                 0 <= h <= 23 /\ 0 <= m <= 59) /\
  (is_HHmm_shape "7:30abc" = false /\ parseTimeString "7:30abc" = Ok (7, 30) /\
   isValidTimeString "7:30abc" = true) /\
  (is_HHmm_shape "07:3x:59" = false /\ parseTimeString "07:3x:59" = Ok (7, 3) /\
   isValidTimeString "07:3x:59" = true).
Proof.
  split; [|split; repeat split; reflexivity].
  intros time. unfold isValidTimeString, parseTimeString.
  destruct (parseInt (split_colon time !! 0%nat)) as [h|],
    (parseInt (split_colon time !! 1%nat)) as [m|];
    split; intros H; try discriminate;
    try (match type of H with
         | @ex _ _ => destruct H as [h' [m' [H1 [H2 _]]]]; discriminate
         end).
  - destruct (h <? 0) eqn:E1, (h >? 23) eqn:E2, (m <? 0) eqn:E3, (m >? 59) eqn:E4;
      simpl in H; try discriminate.
    rewrite Z.ltb_ge in E1, E3. rewrite Z.gtb_ltb, Z.ltb_ge in E2, E4.
    exists h, m. repeat split; lia.
  - destruct H as [h' [m' [H1 [H2 [Hh Hm]]]]]. injection H1 as <-. injection H2 as <-.
    replace (h <? 0) with false by (symmetry; apply Z.ltb_ge; lia).
    replace (h >? 23) with false by (symmetry; rewrite Z.gtb_ltb; apply Z.ltb_ge; lia).
    replace (m <? 0) with false by (symmetry; apply Z.ltb_ge; lia).
    replace (m >? 59) with false by (symmetry; rewrite Z.gtb_ltb; apply Z.ltb_ge; lia).
    reflexivity.
Qed.


(* ------------------------------------------------------------------ *)
(** ** Instances of the calendar theorems *)

Lemma getNextAlarmTime_one_time_witness :
  parseTimeString "07:30" = Ok (7, 30) /\
  exists t, getNextAlarmTime "07:30" [] 1760954400000 = Ok t /\
    1760954400000 < t <= 1760954400000 + MS_PER_DAY /\
    t = (if setHours 1760954400000 7 30 >? 1760954400000 then setHours 1760954400000 7 30
         else addDays (setHours 1760954400000 7 30) 1).
Proof.
  split; [vm_compute; reflexivity|].
  apply (getNextAlarmTime_one_time "07:30" 7 30 1760954400000). vm_compute. reflexivity.
Defined.

Lemma getNextAlarmTime_weekday_in_repeats_witness :
  parseTimeString "07:30" = Ok (7, 30) /\ [Sat; Sun] <> [] /\
  exists t, getNextAlarmTime "07:30" [Sat; Sun] 1760954400000 = Ok t /\
            In (NUMBER_TO_WEEKDAY (getDay t)) [Sat; Sun].
Proof.
  split; [vm_compute; reflexivity|]. split; [discriminate|].
  apply (getNextAlarmTime_weekday_in_repeats "07:30" 7 30 [Sat; Sun] 1760954400000);
    [vm_compute; reflexivity | discriminate].
Defined.

Lemma getNextWeekdayOccurrence_today_passed_witness :
  parseTimeString "09:00" = Ok (9, 0) /\
  WEEKDAY_TO_NUMBER Mon = getDay 1760954400000 /\
  setHours 1760954400000 9 0 <= 1760954400000 /\
  getNextWeekdayOccurrence Mon "09:00" 1760954400000
    = Ok (addDays (setHours 1760954400000 9 0) 7) /\
  addDays (setHours 1760954400000 9 0) 7 <> setHours 1760954400000 9 0 /\
  getNextAlarmTime "09:00" [Mon] 1760954400000 = Ok 1761555600000 /\
  getDay 1760954400000 = WEEKDAY_TO_NUMBER Mon /\
  getDay 1761555600000 = WEEKDAY_TO_NUMBER Mon.
Proof.
  split; [vm_compute; reflexivity|]. split; [vm_compute; reflexivity|].
  split; [vm_compute; discriminate|].
  apply (getNextWeekdayOccurrence_today_passed Mon "09:00" 9 0 1760954400000);
    [vm_compute; reflexivity | vm_compute; reflexivity | vm_compute; discriminate].
Defined.

(* ------------------------------------------------------------------ *)
(** ** Specifications of the stateful operations *)

(** Keep these folded while the monadic code is reduced. *)
Arguments getNextAlarmTime : simpl never.

Arguments findAlarm : simpl never.

Arguments replace_first : simpl never.

(** Case on the innermost [match] scrutinee of [H], keeping its equation. *)
Ltac split_innermost H :=
  match type of H with
  | context [match ?x with _ => _ end] =>
      lazymatch x with
      | context [match _ with _ => _ end] => fail
      | _ => destruct x eqn:?
      end
  end.

Ltac crush_in H := repeat (cbn in H; split_innermost H).

(** [scheduleAlarm] leaves the alarm lists alone; on success it appends one
    request under the next identifier, on failure the requests are unchanged. *)
Lemma scheduleAlarm_spec a now s r s' :
  scheduleAlarm a now s = (r, s') ->
  alarms s' = alarms s /\ storage s' = storage s /\
  match r with
  | Ok nid => nid = nextIdentifier (notifier s) /\
      nextIdentifier (notifier s') = S nid /\
      exists trig, scheduled (notifier s') =
        scheduled (notifier s) ++ [mkScheduled nid (mkNotificationData (id a) false (label a) None) trig]
  | Err _ => scheduled (notifier s') = scheduled (notifier s) /\
      nextIdentifier (notifier s') = nextIdentifier (notifier s)
  end.
Proof.
  intros H.
  unfold scheduleAlarm, calculateNextTrigger, NotificationService_scheduleNotification,
    liftN, scheduleNotificationAsync, catch, bind, ret, throw in H.
  crush_in H; injection H as <- <-; cbn; eauto 8.
Qed.

Lemma cancelIfAny_spec n s r s' :
  cancelIfAny n s = (r, s') ->
  r = Ok tt /\ alarms s' = alarms s /\ storage s' = storage s /\
  scheduled (notifier s') = cancelled n (scheduled (notifier s)) /\
  nextIdentifier (notifier s') = nextIdentifier (notifier s).
Proof.
  intros H. destruct n as [t|]; unfold cancelIfAny, cancelAlarm,
    NotificationService_cancelNotification, liftN, cancelScheduledNotificationAsync,
    catch, ret in H; cbn in H; injection H as <- <-; cbn; auto 6.
Qed.

Lemma Storage_updateAlarm_spec a now s r s' :
  Storage_updateAlarm a now s = (r, s') ->
  alarms s' = alarms s /\ notifier s' = notifier s.
Proof.
  intros H. unfold Storage_updateAlarm, setStorage, catch, bind, get, ret, throw in H.
  crush_in H; injection H as <- <-; cbn; auto.
Qed.

Ltac destruct_conjs :=
  repeat match goal with
  | H : _ /\ _ |- _ => destruct H
  | H : exists _, _ |- _ => destruct H
  end.

Ltac use_specs :=
  repeat match goal with
  | E : cancelIfAny _ _ = (_, _) |- _ => apply cancelIfAny_spec in E
  | E : scheduleAlarm _ _ _ = (_, _) |- _ => apply scheduleAlarm_spec in E
  | E : Storage_updateAlarm _ _ _ = (_, _) |- _ => apply Storage_updateAlarm_spec in E
  end; cbn in *; destruct_conjs; subst.

(** A failed [updateAlarm] leaves the alarm list alone; a successful one
    replaces the record found by the merged one as described by [updated_by]. *)
Lemma updateAlarm_spec alarmId u now s r s' :
  updateAlarm alarmId u now s = (r, s') ->
  match r with
  | Err _ => alarms s' = alarms s
  | Ok _ => exists e upd, findAlarm alarmId (alarms s) = Some e /\
      alarms s' = replaceById alarmId upd (alarms s) /\
      updated_by e u now (notifier s) (notifier s') upd
  end.
Proof.
  intros H.
  unfold updateAlarm, findOrThrow, getAlarmById, setError, setAlarms, catch, bind, get,
    ret, throw in H.
  crush_in H.
  all: try (injection H as <- <-).
  all: use_specs.
  all: try congruence.
  all: exists a; eexists; split; [reflexivity|]; split; [f_equal; congruence|].
  all: unfold updated_by; rewrite Heqb; cbn.
  all: try rewrite Heqb0.
  all: repeat match goal with H : notifier _ = notifier _ |- _ => rewrite H in * end.
  all: repeat match goal with
       | H : scheduled (notifier _) = _ |- _ => rewrite H in *; clear H
       | H : nextIdentifier (notifier _) = _ |- _ => rewrite H in *; clear H
       end.
  all: rewrite ?app_nil_r; eauto.
Qed.

Lemma findAlarm_id alarmId l e : findAlarm alarmId l = Some e -> id e = alarmId.
Proof.
  unfold findAlarm. intros H. apply find_some in H as [_ H].
  apply String.eqb_eq in H. exact H.
Qed.

Lemma findAlarm_In alarmId l e : findAlarm alarmId l = Some e -> In e l.
Proof. unfold findAlarm. intros H. apply find_some in H as [H _]. exact H. Qed.

Lemma findAlarm_replaceById alarmId upd l e :
  findAlarm alarmId l = Some e -> id upd = alarmId ->
  findAlarm alarmId (replaceById alarmId upd l) = Some upd.
Proof.
  unfold findAlarm, replaceById. intros H Hid. induction l as [|a l IH]; cbn in *.
  - discriminate.
  - destruct (String.eqb (id a) alarmId) eqn:E; cbn.
    + rewrite Hid, String.eqb_refl. reflexivity.
    + rewrite E. apply IH. exact H.
Qed.

Lemma filter_cancelled_empty (P : ScheduledNotification -> bool) l o :
  map sn_identifier (List.filter P l) = option_to_list o ->
  List.filter P (cancelled o l) = [].
Proof.
  destruct o as [t|]; cbn.
  - induction l as [|r l IH]; cbn; [reflexivity|].
    destruct (P r) eqn:Pr; cbn.
    + intros H. injection H as Ht Hrest. subst t. rewrite Nat.eqb_refl. cbn.
      clear IH. induction l as [|r' l IH']; cbn in *; [reflexivity|].
      destruct (P r') eqn:Pr'; cbn in *; [discriminate|].
      destruct (negb (Nat.eqb (sn_identifier r') (sn_identifier r))); cbn;
        [rewrite Pr'|]; apply IH'; exact Hrest.
    + intros H. destruct (negb (Nat.eqb (sn_identifier r) t)); cbn;
        [rewrite Pr|]; apply IH; exact H.
  - intros H. apply map_eq_nil in H. exact H.
Qed.

Lemma Forall_cancelled (Q : ScheduledNotification -> Prop) o l :
  Forall Q l -> Forall Q (cancelled o l).
Proof.
  destruct o as [t|]; cbn; [|auto].
  intros H. apply List.Forall_forall. intros x Hx. apply filter_In in Hx as [Hx _].
  rewrite List.Forall_forall in H. auto.
Qed.

Lemma not_In_cancelled t l :
  ~ In t (map sn_identifier (cancelled (Some t) l)).
Proof.
  cbn. intros H. apply in_map_iff in H as [r [Hr Hin]].
  apply filter_In in Hin as [_ Hin]. subst t. rewrite Nat.eqb_refl in Hin. discriminate.
Qed.

(** One rescheduling edit of an alarm whose requests are exactly its token. *)
Lemma updateAlarm_reschedule_step alarmId u now s s' e :
  findAlarm alarmId (alarms s) = Some e ->
  liveFor alarmId (notifier s) = option_to_list (notificationId e) ->
  fresh (notifier s) ->
  needsReschedule u = true ->
  updateAlarm alarmId u now s = (Ok tt, s') ->
  exists e', findAlarm alarmId (alarms s') = Some e' /\
    liveFor alarmId (notifier s') = option_to_list (notificationId e') /\
    fresh (notifier s') /\
    notificationId e' = (if isEnabled e' then Some (nextIdentifier (notifier s)) else None) /\
    (forall t, notificationId e = Some t -> ~ In t (identifiers (notifier s'))).
Proof.
  intros Hf Hlive Hfresh Hn H.
  apply updateAlarm_spec in H as (e0 & upd & Hf0 & Halarms & Hby).
  rewrite Hf in Hf0. injection Hf0 as <-.
  unfold updated_by in Hby. rewrite Hn in Hby. destruct Hby as ([trig Hsch] & Hnext & ->).
  pose proof (findAlarm_id _ _ _ Hf) as Hid.
  remember (isEnabled (applyUpdates e u now)) as en eqn:Hen.
  exists (set_notificationId (applyUpdates e u now)
       (if en then Some (nextIdentifier (notifier s)) else None)).
  split; [rewrite Halarms; apply findAlarm_replaceById with (e := e); [exact Hf | exact Hid]|].
  unfold liveFor, fresh, identifiers in *. rewrite Hsch, Hnext.
  split; [|split; [|split]].
  - rewrite List.filter_app, map_app, (filter_cancelled_empty _ _ _ Hlive). cbn.
    destruct en; cbn; [|reflexivity].
    rewrite Hid, String.eqb_refl. reflexivity.
  - apply List.Forall_app. split.
    + eapply List.Forall_impl; [|apply Forall_cancelled; exact Hfresh].
      intros r Hr. cbn in Hr. destruct en; lia.
    + destruct en; constructor; cbn; [lia | constructor].
  - subst en. reflexivity.
  - intros t Ht. rewrite Ht in Hlive |- *. rewrite map_app, in_app_iff.
    intros [Hin | Hin]; [exact (not_In_cancelled t _ Hin)|].
    destruct en; cbn in Hin; [|exact Hin].
    destruct Hin as [Hin | []].
    assert (Ht' : In t (map sn_identifier (List.filter
              (fun r => String.eqb (nd_alarmId (sn_data r)) alarmId) (scheduled (notifier s))))).
    { rewrite Hlive. left. reflexivity. }
    apply in_map_iff in Ht' as [r [<- Hr]]. apply filter_In in Hr as [Hr _].
    rewrite List.Forall_forall in Hfresh. specialize (Hfresh r Hr). lia.
Qed.

(* ------------------------------------------------------------------ *)
(** ** Editing twice *)

(** The live-reading [updateAlarm] is the callback of the render that shows
    the current list. *)
Lemma updateAlarm_cb_current (alarmId : string) (u : AlarmUpdate) (now : Z) (s : AppState) :
  updateAlarm_cb (alarms s) alarmId u now s = updateAlarm alarmId u now s.
Proof. destruct s; reflexivity. Qed.

(** Two successive rescheduling edits, each through the callback of a render
    that shows the list left by the previous edit, starting from a state
    where the alarm's only pending request is its token, leave exactly one
    live request for it (its new token) when the edited alarm is enabled and
    none when it is disabled; the token of the first edit is no longer
    pending after the second. *)
Theorem updateAlarm_twice_single_registration (alarmId : string) (u1 u2 : AlarmUpdate)
    (now1 now2 : Z) (s s1 s2 : AppState) (e : Alarm) :
  findAlarm alarmId (alarms s) = Some e ->
  liveFor alarmId (notifier s) = option_to_list (notificationId e) ->
  fresh (notifier s) ->
  needsReschedule u1 = true -> needsReschedule u2 = true ->
  updateAlarm alarmId u1 now1 s = (Ok tt, s1) ->
  updateAlarm alarmId u2 now2 s1 = (Ok tt, s2) ->
  exists e1 e2, findAlarm alarmId (alarms s1) = Some e1 /\
    findAlarm alarmId (alarms s2) = Some e2 /\
    (isEnabled e2 = true ->
       exists t, notificationId e2 = Some t /\ liveFor alarmId (notifier s2) = [t]) /\
    (isEnabled e2 = false ->
       notificationId e2 = None /\ liveFor alarmId (notifier s2) = []) /\
    (forall t1, notificationId e1 = Some t1 -> ~ In t1 (identifiers (notifier s2))).
Proof.
  intros Hf Hlive Hfresh Hn1 Hn2 H1 H2.
  destruct (updateAlarm_reschedule_step _ _ _ _ _ _ Hf Hlive Hfresh Hn1 H1)
    as (e1 & Hf1 & Hlive1 & Hfresh1 & _ & _).
  destruct (updateAlarm_reschedule_step _ _ _ _ _ _ Hf1 Hlive1 Hfresh1 Hn2 H2)
    as (e2 & Hf2 & Hlive2 & _ & Hid2 & Hgone).
  exists e1, e2. split; [exact Hf1|]. split; [exact Hf2|]. split; [|split].
  - intros Hen. rewrite Hen in Hid2. eexists. split; [exact Hid2|].
    rewrite Hlive2, Hid2. reflexivity.
  - intros Hen. rewrite Hen in Hid2. split; [exact Hid2|]. rewrite Hlive2, Hid2. reflexivity.
  - exact Hgone.
Qed.

(** Two time edits of alarm [a1], which holds token 0. *)
Lemma updateAlarm_twice_single_registration_witness :
  findAlarm "a1" (alarms demo_s0) = Some (demo_alarm true (Some 0%nat)) /\
  liveFor "a1" (notifier demo_s0) = [0%nat] /\
  fresh (notifier demo_s0) /\
  updateAlarm "a1" (update_time "08:00") 100 demo_s0 = (Ok tt, demo_s1) /\
  updateAlarm "a1" (update_time "09:00") 200 demo_s1 = (Ok tt, demo_s2) /\
  exists e1 e2, findAlarm "a1" (alarms demo_s1) = Some e1 /\
    findAlarm "a1" (alarms demo_s2) = Some e2 /\
    (isEnabled e2 = true ->
       exists t, notificationId e2 = Some t /\ liveFor "a1" (notifier demo_s2) = [t]) /\
    (isEnabled e2 = false ->
       notificationId e2 = None /\ liveFor "a1" (notifier demo_s2) = []) /\
    (forall t1, notificationId e1 = Some t1 -> ~ In t1 (identifiers (notifier demo_s2))).
Proof.
  assert (Hf : findAlarm "a1" (alarms demo_s0) = Some (demo_alarm true (Some 0%nat)))
    by reflexivity.
  assert (Hl : liveFor "a1" (notifier demo_s0) = [0%nat]) by reflexivity.
  assert (Hr : fresh (notifier demo_s0)) by (unfold fresh; cbn; repeat constructor).
  assert (H1 : updateAlarm "a1" (update_time "08:00") 100 demo_s0 = (Ok tt, demo_s1))
    by (vm_compute; reflexivity).
  assert (H2 : updateAlarm "a1" (update_time "09:00") 200 demo_s1 = (Ok tt, demo_s2))
    by (vm_compute; reflexivity).
  do 5 (split; [assumption|]).
  exact (updateAlarm_twice_single_registration "a1" (update_time "08:00") (update_time "09:00")
           100 200 demo_s0 demo_s1 demo_s2 (demo_alarm true (Some 0%nat))
           Hf Hl Hr eq_refl eq_refl H1 H2).
Defined.

(** C4 (code bug): [updateAlarm] reads the list captured by its
    [useCallback(..., [alarms])]. Calling the same callback twice in a row on
    alarm [a1] (token 0, notifier otherwise empty) with two time edits: both
    calls succeed, but the second cancels the captured token 0 again instead
    of the first edit's token 1, so [a1] ends with two live requests, 1 and 2,
    and holds token 2. *)
Lemma updateAlarm_same_callback_twice_two_registrations :
  let edit := updateAlarm_cb (alarms demo_s0) in
  let (r1, s1) := edit "a1" (update_time "08:00") 100 demo_s0 in
  let (r2, s2) := edit "a1" (update_time "09:00") 200 s1 in
  liveFor "a1" (notifier demo_s0) = [0%nat] /\
  r1 = Ok tt /\ r2 = Ok tt /\
  liveFor "a1" (notifier s2) = [1%nat; 2%nat] /\
  option_map notificationId (findAlarm "a1" (alarms s2)) = Some (Some 2%nat) /\
  option_map notificationId (findAlarm "a1" (storage s2)) = Some (Some 2%nat).
Proof. vm_compute. repeat split. Qed.

(* ------------------------------------------------------------------ *)
(** ** Which edits reschedule *)

(** C5 (counterexample): an edit that only changes [soundUri] cancels the
    alarm's token 0, and an edit of [snoozeDuration] leaves the notifier
    untouched: the reschedule condition is [time], [repeats], [isEnabled] or
    [soundUri] being supplied, not a change of [snoozeDuration]. *)
Lemma updateAlarm_sound_only_reschedules :
  fst (updateAlarm "a1" (update_soundUri "chimes") 100 (demo_state true (Some 0%nat))) = Ok tt /\
  In 0%nat (identifiers (notifier (demo_state true (Some 0%nat)))) /\
  ~ In 0%nat (identifiers (notifier (snd (updateAlarm "a1" (update_soundUri "chimes") 100
                                          (demo_state true (Some 0%nat)))))) /\
  notifier (snd (updateAlarm "a1" (update_snoozeDuration 5) 100 (demo_state true (Some 0%nat))))
    = notifier (demo_state true (Some 0%nat)).
Proof. vm_compute. split; [reflexivity|]. split; [left; reflexivity|]. split; [|reflexivity].
  intros [H|H]; [discriminate|exact H]. Qed.

(** C5 (amended): [updateAlarm] takes the cancel-old/schedule-new path
    exactly when the update supplies [time], [repeats], [isEnabled] or
    [soundUri] (whether or not the value differs); otherwise the notifier is
    unchanged and the stored record is the plain merge; on that path the old
    token is no longer pending. *)
Theorem updateAlarm_reschedules_on_supplied_fields alarmId u now s s' e :
  findAlarm alarmId (alarms s) = Some e ->
  updateAlarm alarmId u now s = (Ok tt, s') ->
  (needsReschedule u = true <->
     u_time u <> None \/ u_repeats u <> None \/ u_isEnabled u <> None \/ u_soundUri u <> None) /\
  (needsReschedule u = false ->
     notifier s' = notifier s /\ findAlarm alarmId (alarms s') = Some (applyUpdates e u now)) /\
  (needsReschedule u = true -> forall t, notificationId e = Some t ->
     (t < nextIdentifier (notifier s))%nat -> ~ In t (identifiers (notifier s'))).
Proof.
  intros Hf H. pose proof (findAlarm_id _ _ _ Hf) as Hid.
  apply updateAlarm_spec in H as (e0 & upd & Hf0 & Halarms & Hby).
  rewrite Hf in Hf0. injection Hf0 as <-.
  unfold updated_by in Hby. split; [|split].
  - unfold needsReschedule.
    destruct (u_time u), (u_repeats u), (u_isEnabled u), (u_soundUri u); cbn;
      split; intros; try reflexivity; try discriminate;
      repeat match goal with H : _ \/ _ |- _ => destruct H end;
      try congruence; eauto 8 using Some_ne_None.
  - intros Hn. rewrite Hn in Hby. destruct Hby as [-> ->]. split; [reflexivity|].
    rewrite Halarms. apply findAlarm_replaceById with (e := e); [exact Hf | exact Hid].
  - intros Hn t Ht Hlt. rewrite Hn in Hby. destruct Hby as ([trig Hsch] & _ & _).
    unfold identifiers. rewrite Hsch, Ht, map_app, in_app_iff.
    intros [Hin | Hin]; [exact (not_In_cancelled t _ Hin)|].
    destruct (isEnabled (applyUpdates e u now)); cbn in Hin; [|exact Hin].
    destruct Hin as [Hin | []]. lia.
Qed.

(* ------------------------------------------------------------------ *)
(** ** Token present iff enabled *)

Lemma Storage_addAlarm_spec a s r s' :
  Storage_addAlarm a s = (r, s') -> r = Ok tt /\ alarms s' = alarms s.
Proof. unfold Storage_addAlarm, setStorage, bind, get, ret. cbn. intros H. injection H as <- <-. auto. Qed.

Lemma rescheduleRepeatingAlarm_spec a now s r s' :
  rescheduleRepeatingAlarm a now s = (r, s') ->
  alarms s' = alarms s /\ (forall n, r = Ok (Some n) -> isEnabled a = true).
Proof.
  intros H. unfold rescheduleRepeatingAlarm, catch, bind, ret, throw in H.
  destruct (repeats a) eqn:Er; cbn in H; [injection H as <- <-; split; [reflexivity | discriminate]|].
  destruct (isEnabled a) eqn:Ee; cbn in H; [|injection H as <- <-; split; [reflexivity | discriminate]].
  destruct (scheduleAlarm a now s) as [r1 s1] eqn:E1.
  apply scheduleAlarm_spec in E1 as (E1 & _).
  destruct r1; cbn in H; injection H as <- <-; cbn; split; auto; discriminate.
Qed.

Lemma Inv_replaceById alarmId upd s :
  Inv s -> trigger_matches_enabled upd = true ->
  forallb trigger_matches_enabled (replaceById alarmId upd (alarms s)) = true.
Proof.
  unfold Inv, replaceById. intros H Hu. induction (alarms s) as [|a l IH]; cbn in *; [reflexivity|].
  apply andb_true_iff in H as [Ha Hl].
  destruct (String.eqb (id a) alarmId); cbn; rewrite ?Ha, ?Hu, IH by exact Hl; reflexivity.
Qed.

Lemma findAlarm_matches alarmId s e :
  Inv s -> findAlarm alarmId (alarms s) = Some e -> trigger_matches_enabled e = true.
Proof.
  unfold Inv. intros H Hf. apply findAlarm_In in Hf.
  rewrite forallb_forall in H. apply H, Hf.
Qed.

(** [updateAlarm] keeps [Inv] unless its updates store a token by hand. *)
Lemma updateAlarm_Inv alarmId u now s r s' :
  Inv s ->
  (forall e, findAlarm alarmId (alarms s) = Some e ->
     needsReschedule u = true \/ trigger_matches_enabled (applyUpdates e u now) = true) ->
  updateAlarm alarmId u now s = (r, s') -> Inv s'.
Proof.
  intros HI Hok H. apply updateAlarm_spec in H. destruct r.
  - destruct H as (e & upd & Hf & Halarms & Hby). unfold Inv. rewrite Halarms.
    apply Inv_replaceById; [exact HI|]. unfold updated_by in Hby.
    destruct (needsReschedule u) eqn:Hn.
    + destruct Hby as (_ & _ & ->). unfold trigger_matches_enabled. cbn.
      destruct (spread_field (u_isEnabled u) (isEnabled e)); reflexivity.
    + destruct Hby as [-> _]. destruct (Hok e Hf) as [Hc | Hc]; [discriminate | exact Hc].
  - unfold Inv. rewrite H. exact HI.
Qed.

Lemma updateAlarm_Inv_plain alarmId u now s r s' :
  u_notificationId u = None -> Inv s -> updateAlarm alarmId u now s = (r, s') -> Inv s'.
Proof.
  intros Hu HI. apply updateAlarm_Inv; [exact HI|]. intros e Hf.
  destruct (needsReschedule u) eqn:Hn; [left; reflexivity|right].
  pose proof (findAlarm_matches _ _ _ HI Hf) as He.
  unfold needsReschedule in Hn. repeat rewrite orb_false_iff in Hn.
  destruct Hn as [[[_ _] Hen] _].
  unfold trigger_matches_enabled in *. cbn. rewrite Hu.
  destruct (u_isEnabled u); [discriminate|]. exact He.
Qed.

Lemma addAlarm_Inv input newId now s r s' :
  Inv s -> addAlarm input newId now s = (r, s') -> Inv s'.
Proof.
  intros HI H.
  unfold addAlarm, setError, setAlarms, catch, bind, ret, throw in H.
  crush_in H; try (injection H as <- <-).
  all: repeat match goal with
       | E : scheduleAlarm _ _ _ = (_, _) |- _ => apply scheduleAlarm_spec in E as (? & _)
       | E : Storage_addAlarm _ _ = (_, _) |- _ => apply Storage_addAlarm_spec in E as (_ & ?)
       end.
  all: unfold Inv in *; cbn in *; try congruence.
  all: rewrite forallb_app; apply andb_true_iff; split; [congruence|].
  all: unfold trigger_matches_enabled; cbn; rewrite ?Heqb; reflexivity.
Qed.

Lemma toggleAlarm_Inv alarmId now s r s' :
  Inv s -> toggleAlarm alarmId now s = (r, s') -> Inv s'.
Proof.
  intros HI H.
  unfold toggleAlarm, findOrThrow, getAlarmById, setError, catch, bind, get, ret, throw in H.
  crush_in H; try (injection H as <- <-); unfold Inv in *; cbn in *; try exact HI.
  all: match goal with
       | E : updateAlarm _ _ _ _ = (_, _) |- _ =>
           apply updateAlarm_Inv in E; [unfold Inv in E; exact E | exact HI | left; reflexivity]
       end.
Qed.

Lemma onDismiss_Inv alarmId now s r s' :
  Inv s -> onDismiss alarmId now s = (r, s') -> Inv s'.
Proof.
  intros HI H.
  unfold onDismiss, getAlarmById, catch, bind, get, ret in H.
  crush_in H; try (injection H as <- <-); try exact HI.
  all: repeat match goal with
       | E : cancelIfAny _ _ = (_, _) |- _ => apply cancelIfAny_spec in E as (_ & ? & _)
       | E : rescheduleRepeatingAlarm _ _ _ = (_, _) |- _ =>
           apply rescheduleRepeatingAlarm_spec in E as (? & ?)
       end.
  all: try (unfold Inv; congruence).
  all: match goal with
       | E : updateAlarm _ _ _ _ = (_, _) |- _ => apply updateAlarm_Inv in E; [exact E| |]
       end.
  all: try (unfold Inv; congruence).
  all: intros e Hf.
  all: try (left; reflexivity).
  all: right;
    repeat match goal with Ha : alarms _ = alarms _ |- _ => rewrite Ha in Hf; clear Ha end;
    rewrite Heqo in Hf; injection Hf as <-;
    unfold trigger_matches_enabled; cbn;
    match goal with Hs : forall n0, Ok (Some ?n) = _ -> _ |- _ => rewrite (Hs n eq_refl) end;
    reflexivity.
Qed.

(** C3 (code bug): [onSnooze] checks [snoozeEnabled] but not [isEnabled],
    unlike every other scheduling path. Snoozing the disabled alarm [a1]
    (snooze allowed, no token) stores the snooze token 1 in it, so a disabled
    alarm ends up with a pending trigger. *)
Lemma onSnooze_leaves_disabled_alarm_armed :
  Inv (demo_state false None) /\
  fst (onSnooze "a1" 100 (demo_state false None)) = Ok tt /\
  option_map (fun a => (isEnabled a, notificationId a))
    (findAlarm "a1" (alarms (snd (onSnooze "a1" 100 (demo_state false None)))))
    = Some (false, Some 1%nat) /\
  ~ Inv (snd (onSnooze "a1" 100 (demo_state false None))).
Proof.
  unfold Inv. vm_compute. split; [reflexivity|]. split; [reflexivity|].
  split; [reflexivity|]. discriminate.
Qed.

(** "Token present iff enabled" for every alarm of the list is preserved by
    the paths that check [isEnabled] before scheduling: [addAlarm],
    [toggleAlarm], [updateAlarm] with updates that do not set
    [notificationId], and the dismiss handler, whatever their outcome. *)
Theorem trigger_matches_enabled_preserved :
  (forall input newId now s r s', Inv s -> addAlarm input newId now s = (r, s') -> Inv s') /\
  (forall alarmId now s r s', Inv s -> toggleAlarm alarmId now s = (r, s') -> Inv s') /\
  (forall alarmId u now s r s', u_notificationId u = None -> Inv s ->
     updateAlarm alarmId u now s = (r, s') -> Inv s') /\
  (forall alarmId now s r s', Inv s -> onDismiss alarmId now s = (r, s') -> Inv s').
Proof.
  split; [exact addAlarm_Inv|]. split; [exact toggleAlarm_Inv|].
  split; [exact updateAlarm_Inv_plain | exact onDismiss_Inv].
Qed.

(* ------------------------------------------------------------------ *)
(** ** Creating an alarm the notifier refuses *)

(** A refused request makes [scheduleAlarm] fail without touching anything
    but the notifier's script. *)
Lemma scheduleAlarm_refused a now s rest :
  scheduleOutcomes (notifier s) = false :: rest ->
  exists e s', scheduleAlarm a now s = (Err e, s') /\
    alarms s' = alarms s /\ storage s' = storage s /\
    scheduled (notifier s') = scheduled (notifier s).
Proof.
  intros Hout.
  unfold scheduleAlarm, calculateNextTrigger, NotificationService_scheduleNotification,
    liftN, scheduleNotificationAsync, catch, bind, ret, throw.
  destruct (getNextAlarmTime (time a) (repeats a) now); cbn; [rewrite Hout; cbn|];
    do 2 eexists; repeat split.
Qed.

(** C1 (amended): when an enabled alarm is created and the notifier refuses
    the request, [addAlarm] fails with "Failed to schedule alarm notification",
    sets the error "Failed to add alarm", and neither the store nor the alarm
    list nor the pending requests change: no record is created. *)
Theorem addAlarm_schedule_failure (input : AlarmInput) (newId : string) (now : Z)
    (s : AppState) (rest : list bool) :
  in_isEnabled input = true ->
  scheduleOutcomes (notifier s) = false :: rest ->
  exists s', addAlarm input newId now s = (Err "Failed to schedule alarm notification", s') /\
    storage s' = storage s /\ alarms s' = alarms s /\
    error s' = Some "Failed to add alarm" /\
    scheduled (notifier s') = scheduled (notifier s).
Proof.
  intros Hen Hout.
  unfold addAlarm, setError, catch, bind, ret, throw. cbn. rewrite Hen.
  destruct (scheduleAlarm_refused (alarm_of_input input newId now) now
              (mkAppState (alarms s) (storage s) None (notifier s)) rest Hout)
    as (e & s1 & E & Ha & Hs & Hn).
  cbn in Ha, Hs, Hn. rewrite E. cbn. eexists. repeat split; cbn; congruence.
Qed.

(** C1 (counterexample): creating an enabled alarm ["a1"] in an empty store
    whose notifier refuses the request fails and persists no record. *)
Lemma addAlarm_schedule_failure_drops_record :
  fst (addAlarm demo_input "a1" 0 refusing_state) = Err "Failed to schedule alarm notification" /\
  storage (snd (addAlarm demo_input "a1" 0 refusing_state)) = [] /\
  alarms (snd (addAlarm demo_input "a1" 0 refusing_state)) = [] /\
  ~ (exists a, In a (storage (snd (addAlarm demo_input "a1" 0 refusing_state))) /\ id a = "a1").
Proof.
  vm_compute. split; [reflexivity|]. split; [reflexivity|]. split; [reflexivity|].
  intros (a & [] & _).
Qed.

(** The refused creation of [demo_input]. *)
Lemma addAlarm_schedule_failure_witness :
  in_isEnabled demo_input = true /\
  exists s', addAlarm demo_input "a1" 0 refusing_state = (Err "Failed to schedule alarm notification", s') /\
    storage s' = storage refusing_state /\ alarms s' = alarms refusing_state /\
    error s' = Some "Failed to add alarm" /\
    scheduled (notifier s') = scheduled (notifier refusing_state).
Proof.
  split; [reflexivity|]. apply (addAlarm_schedule_failure demo_input "a1" 0 refusing_state []);
    reflexivity.
Defined.

(* ------------------------------------------------------------------ *)
(** ** Early deliveries *)

(** C2: a notification delivered more than 30 s (the tolerance) before its
    expected instant is neither shown nor sounded, and the state, hence each
    alarm and its token, is unchanged. *)
Theorem deliverNotification_early_ignored (n : Notification) (now expected : Z) (s : AppState) :
  expectedTriggerAt n = Some expected ->
  expected - now > 30000 ->
  deliverNotification n now s = (mkNotificationBehavior false false false false false, s).
Proof.
  unfold expectedTriggerAt, deliverNotification, handleNotification. intros He Hgt.
  rewrite He. destruct (Qle_bool _ _) eqn:Hq; [|reflexivity].
  apply Qle_bool_iff in Hq. unfold Qle, TOLERANCE_SECONDS in Hq. cbn in Hq. lia.
Qed.

(** Delivery five minutes before [early_fire]'s trigger date. *)
Lemma deliverNotification_early_ignored_witness :
  expectedTriggerAt early_fire = Some 1760954400000 /\
  1760954400000 - (1760954400000 - 300000) > 30000 /\
  deliverNotification early_fire (1760954400000 - 300000) (demo_state true (Some 0%nat))
    = (mkNotificationBehavior false false false false false, demo_state true (Some 0%nat)).
Proof.
  split; [reflexivity|]. split; [lia|].
  apply (deliverNotification_early_ignored early_fire (1760954400000 - 300000) 1760954400000);
    [reflexivity | lia].
Defined.

(* ------------------------------------------------------------------ *)
(** ** Rescheduling all alarms *)

(** The loop returns the map of the successful attempts and never fails. *)
Lemma rescheduleLoop_attempts l now acc s :
  rescheduleLoop l now acc s =
  (Ok (results_of (fst (scheduleAttempts l now s)) acc), snd (scheduleAttempts l now s)).
Proof.
  revert acc s. induction l as [|a l IH]; intros acc s; [reflexivity|].
  cbn [rescheduleLoop scheduleAttempts]. unfold bind, catch, ret, throw.
  destruct (scheduleAlarm a now s) as [[n|e] s1];
    destruct (scheduleAttempts l now s1) as [tr s2] eqn:E; cbn; rewrite IH, E; reflexivity.
Qed.

Lemma scheduleAttempts_fst l now s :
  map fst (fst (scheduleAttempts l now s)) = l.
Proof.
  revert s. induction l as [|a l IH]; intros s; [reflexivity|]. cbn.
  destruct (scheduleAlarm a now s) as [r s1].
  specialize (IH s1). destruct (scheduleAttempts l now s1) as [tr s2]. cbn in *. congruence.
Qed.

(** The keys of the map are the ids of the successful attempts. *)
Lemma results_of_is_Some attempts acc k :
  is_Some (results_of attempts acc !! k) <->
  is_Some (acc !! k) \/ exists a n, In (a, Ok n) attempts /\ id a = k.
Proof.
  revert acc. induction attempts as [|[a [n|e]] rest IH]; intros acc; cbn.
  - split; [auto|]. intros [H|(a & n & [] & _)]; exact H.
  - rewrite IH, lookup_insert_is_Some'. split.
    + intros [[Hk|Hk]|(b & m & Hin & Hb)]; [right; eauto | left; exact Hk | right; eauto].
    + intros [Hk|(b & m & [Heq|Hin] & Hb)]; [auto | | eauto 7].
      injection Heq as -> ->. auto.
  - rewrite IH. split.
    + intros [Hk|(b & m & Hin & Hb)]; [auto | eauto 7].
    + intros [Hk|(b & m & [Heq|Hin] & Hb)]; [auto | discriminate | eauto].
Qed.

(** C9: [rescheduleAllAlarms] attempts [scheduleAlarm] on exactly the
    enabled alarms, in order, always succeeds, and returns the map whose keys
    are the ids of the attempts that succeeded: a failing alarm is skipped and
    the loop goes on. *)
Theorem rescheduleAllAlarms_isolates_failures (alarmList : list Alarm) (now : Z) (s : AppState) :
  let (attempts, s') := scheduleAttempts (List.filter isEnabled alarmList) now s in
  rescheduleAllAlarms alarmList now s = (Ok (results_of attempts ∅), s') /\
  map fst attempts = List.filter isEnabled alarmList /\
  (forall k, is_Some (results_of attempts ∅ !! k) <->
             exists a n, In (a, Ok n) attempts /\ id a = k).
Proof.
  pose proof (scheduleAttempts_fst (List.filter isEnabled alarmList) now s) as Hf.
  pose proof (rescheduleLoop_attempts (List.filter isEnabled alarmList) now ∅ s) as Hl.
  destruct (scheduleAttempts _ now s) as [attempts s'] eqn:E. cbn in Hf, Hl.
  split; [|split; [exact Hf|]].
  - unfold rescheduleAllAlarms, catch. rewrite Hl. reflexivity.
  - intros k. rewrite results_of_is_Some, lookup_empty. split.
    + intros [H|H]; [inversion H; discriminate | exact H].
    + auto.
Qed.

(** The invalid alarm fails, the disabled one is skipped, the valid one is
    scheduled under identifier 0. *)
Lemma rescheduleAllAlarms_mixed_example :
  fst (rescheduleAllAlarms mixed_alarms 1760954400000
         (mkAppState [] [] None (mkNotifier [] 0%nat []))) = Ok {[ "good" := 0%nat ]}.
Proof. vm_compute. reflexivity. Qed.

(** A time edit of alarm [a1], which holds token 0. *)
Lemma updateAlarm_reschedules_on_supplied_fields_witness :
  findAlarm "a1" (alarms demo_s0) = Some (demo_alarm true (Some 0%nat)) /\
  updateAlarm "a1" (update_time "08:00") 100 demo_s0 = (Ok tt, demo_s1) /\
  ((needsReschedule (update_time "08:00") = true <->
     u_time (update_time "08:00") <> None \/ u_repeats (update_time "08:00") <> None \/
     u_isEnabled (update_time "08:00") <> None \/ u_soundUri (update_time "08:00") <> None) /\
   (needsReschedule (update_time "08:00") = false ->
     notifier demo_s1 = notifier demo_s0 /\
     findAlarm "a1" (alarms demo_s1)
       = Some (applyUpdates (demo_alarm true (Some 0%nat)) (update_time "08:00") 100)) /\
   (needsReschedule (update_time "08:00") = true -> forall t,
     notificationId (demo_alarm true (Some 0%nat)) = Some t ->
     (t < nextIdentifier (notifier demo_s0))%nat -> ~ In t (identifiers (notifier demo_s1)))).
Proof.
  assert (Hf : findAlarm "a1" (alarms demo_s0) = Some (demo_alarm true (Some 0%nat)))
    by (vm_compute; reflexivity).
  assert (Hu : updateAlarm "a1" (update_time "08:00") 100 demo_s0 = (Ok tt, demo_s1))
    by (vm_compute; reflexivity).
  split; [exact Hf|]. split; [exact Hu|].
  exact (updateAlarm_reschedules_on_supplied_fields "a1" (update_time "08:00") 100
           demo_s0 demo_s1 (demo_alarm true (Some 0%nat)) Hf Hu).
Defined.

(* ================================================================== *)
(** * Further properties of the code *)
(* ------------------------------------------------------------------ *)
(** ** Next trigger: window, minimality and failures *)

Lemma setHours_addDays_eq (t k h m : Z) :
  setHours (addDays t k) h m = (t / MS_PER_DAY + k) * MS_PER_DAY + (h * MS_PER_HOUR + m * MS_PER_MINUTE).
Proof. rewrite setHours_split, addDays_div. reflexivity. Qed.

Lemma day_offset_mod (q off : Z) :
  0 <= off < MS_PER_DAY -> (q * MS_PER_DAY + off) mod MS_PER_DAY = off.
Proof.
  intros H. rewrite Z.add_comm, Z.mod_add by (unfold MS_PER_DAY; lia).
  apply Z.mod_small. exact H.
Qed.

(** Every occurrence is after [now], at most a week ahead, not before
    today's instant at the time, and at the time of day. *)
Lemma getNextWeekdayOccurrence_window (day : WeekDay) (time : string) (now h m t : Z) :
  parseTimeString time = Ok (h, m) ->
  getNextWeekdayOccurrence day time now = Ok t ->
  now < t <= now + 7 * MS_PER_DAY /\ setHours now h m <= t /\
  t mod MS_PER_DAY = h * MS_PER_HOUR + m * MS_PER_MINUTE.
Proof.
  intros Hp. pose proof (parseTimeString_range _ _ _ Hp) as [Hh Hm].
  pose proof (time_offset_bounds h m Hh Hm) as Hoff.
  pose proof (day_start_bounds now) as Hd.
  pose proof (getDay_range now) as Hr.
  assert (Ht : 0 <= WEEKDAY_TO_NUMBER day < 7) by (destruct day; simpl; lia).
  assert (Hmod : forall k, setHours (addDays now k) h m mod MS_PER_DAY
                           = h * MS_PER_HOUR + m * MS_PER_MINUTE).
  { intros k. rewrite setHours_addDays_eq. apply day_offset_mod. exact Hoff. }
  unfold getNextWeekdayOccurrence. rewrite Hp.
  pose proof (setHours_split now h m) as Hs.
  destruct (WEEKDAY_TO_NUMBER day - getDay now =? 0) eqn:E0.
  - destruct (setHours now h m >? now) eqn:E; intros H; injection H as <-.
    + rewrite Z.gtb_ltb, Z.ltb_lt in E.
      split; [unfold MS_PER_DAY in *; lia|]. split; [lia|].
      rewrite <- (Hmod 0). unfold addDays. f_equal. f_equal. lia.
    + rewrite Z.gtb_ltb, Z.ltb_ge in E. rewrite setHours_addDays_eq.
      split; [unfold MS_PER_DAY in *; lia|]. split; [lia|].
      apply day_offset_mod. exact Hoff.
  - apply Z.eqb_neq in E0.
    destruct (WEEKDAY_TO_NUMBER day - getDay now <? 0) eqn:E1; intros H; injection H as <-;
      [rewrite Z.ltb_lt in E1 | rewrite Z.ltb_ge in E1];
      rewrite setHours_addDays_eq; (split; [unfold MS_PER_DAY in *; nia|]);
      (split; [unfold MS_PER_DAY in *; nia|]); apply day_offset_mod; exact Hoff.
Qed.

(** The loop keeps a value satisfied by the accumulator and every
    occurrence. *)
Lemma nextOccurrenceLoop_preserves (P : Z -> Prop) (repeats : list WeekDay) (time : string)
    (now : Z) (acc : option Z) (t : Z) :
  (forall d o, In d repeats -> getNextWeekdayOccurrence d time now = Ok o -> P o) ->
  (forall a, acc = Some a -> P a) ->
  nextOccurrenceLoop repeats time now acc = Ok (Some t) -> P t.
Proof.
  revert acc. induction repeats as [|d rest IH]; intros acc Hocc Hacc; cbn.
  - intros H. injection H as ->. apply Hacc. reflexivity.
  - destruct (getNextWeekdayOccurrence d time now) as [o|e] eqn:E; [|discriminate].
    apply IH; [intros d' o' Hin; apply Hocc; right; exact Hin|].
    intros a Ha. destruct acc as [n|]; [destruct (o <? n)|]; injection Ha as <-;
      [eapply Hocc; [left; reflexivity | exact E] | apply Hacc; reflexivity
      | eapply Hocc; [left; reflexivity | exact E]].
Qed.

(** The loop result is the accumulator or one of the occurrences, and it is
    not above any of them. *)
Lemma nextOccurrenceLoop_min (repeats : list WeekDay) (time : string) (now : Z)
    (acc : option Z) (t : Z) :
  nextOccurrenceLoop repeats time now acc = Ok (Some t) ->
  (acc = Some t \/ exists d, In d repeats /\ getNextWeekdayOccurrence d time now = Ok t) /\
  (forall a, acc = Some a -> t <= a) /\
  (forall d o, In d repeats -> getNextWeekdayOccurrence d time now = Ok o -> t <= o).
Proof.
  revert acc. induction repeats as [|d rest IH]; intros acc; cbn.
  - intros H. injection H as ->. split; [left; reflexivity|].
    split; [intros a Ha; injection Ha as ->; lia | intros ? ? []].
  - destruct (getNextWeekdayOccurrence d time now) as [o|e] eqn:E; [|discriminate].
    intros H. apply IH in H as (Hwhich & Hacc & Hall).
    set (next := match acc with
                 | Some n => if o <? n then Some o else Some n
                 | None => Some o end) in *.
    assert (Hnext : (next = Some o /\ forall a, acc = Some a -> o <= a) \/
                    (acc = next /\ exists n, acc = Some n /\ n <= o)).
    { subst next. destruct acc as [n|]; [destruct (o <? n) eqn:Eo|].
      - left. split; [reflexivity|]. intros a Ha. injection Ha as <-.
        apply Z.ltb_lt in Eo. lia.
      - right. split; [reflexivity|]. exists n. apply Z.ltb_ge in Eo. split; [reflexivity | lia].
      - left. split; [reflexivity | discriminate]. }
    split; [|split].
    + destruct Hwhich as [Hw|(d' & Hin & Hd')].
      * destruct Hnext as [[Hn _]|[Hn _]].
        -- right. exists d. rewrite Hw in Hn. injection Hn as ->. split; [left; reflexivity | exact E].
        -- left. congruence.
      * right. exists d'. split; [right; exact Hin | exact Hd'].
    + intros a Ha. destruct Hnext as [[Hn Ho]|[Hn (n & Hn' & Hle)]].
      * specialize (Hacc o Hn). specialize (Ho a Ha). lia.
      * rewrite <- Hn in Hacc. apply Hacc. exact Ha.
    + intros d' o' [<-|Hin] Ho'.
      * rewrite E in Ho'. injection Ho' as <-.
        destruct Hnext as [[Hn _]|[Hn (n & Hn' & Hle)]].
        -- apply Hacc. exact Hn.
        -- rewrite <- Hn in Hacc. specialize (Hacc n Hn'). lia.
      * eapply Hall; eassumption.
Qed.

Lemma WEEKDAY_TO_NUMBER_TO_WEEKDAY (n : Z) :
  0 <= n < 7 -> WEEKDAY_TO_NUMBER (NUMBER_TO_WEEKDAY n) = n.
Proof.
  intros Hn. assert (n = 0 \/ n = 1 \/ n = 2 \/ n = 3 \/ n = 4 \/ n = 5 \/ n = 6) as Hc by lia.
  repeat destruct Hc as [->|Hc]; try reflexivity. subst. reflexivity.
Qed.

(** Today's occurrence, when the time is still ahead. *)
Lemma getNextWeekdayOccurrence_today (time : string) (now h m : Z) :
  parseTimeString time = Ok (h, m) -> setHours now h m > now ->
  getNextWeekdayOccurrence (NUMBER_TO_WEEKDAY (getDay now)) time now = Ok (setHours now h m).
Proof.
  intros Hp Hgt. unfold getNextWeekdayOccurrence. rewrite Hp.
  rewrite WEEKDAY_TO_NUMBER_TO_WEEKDAY by apply getDay_range. rewrite Z.sub_diag. cbn.
  replace (setHours now h m >? now) with true by (symmetry; rewrite Z.gtb_ltb; apply Z.ltb_lt; lia).
  reflexivity.
Qed.

Lemma getNextAlarmTime_window_gen (time : string) (repeats : list WeekDay) (now h m t : Z) :
  parseTimeString time = Ok (h, m) ->
  getNextAlarmTime time repeats now = Ok t ->
  now < t <= now + 7 * MS_PER_DAY /\
  t mod MS_PER_DAY = h * MS_PER_HOUR + m * MS_PER_MINUTE.
Proof.
  intros Hp. pose proof (parseTimeString_range _ _ _ Hp) as [Hh Hm].
  pose proof (time_offset_bounds h m Hh Hm) as Hoff.
  pose proof (day_start_bounds now) as Hd.
  pose proof (setHours_split now h m) as Hs.
  assert (Hmod : setHours now h m mod MS_PER_DAY = h * MS_PER_HOUR + m * MS_PER_MINUTE)
    by (rewrite Hs; apply day_offset_mod; exact Hoff).
  unfold getNextAlarmTime. rewrite Hp. destruct repeats as [|d rest].
  - destruct (setHours now h m >? now) eqn:E; intros H; injection H as <-.
    + rewrite Z.gtb_ltb, Z.ltb_lt in E. split; [unfold MS_PER_DAY in *; lia | exact Hmod].
    + rewrite Z.gtb_ltb, Z.ltb_ge in E. unfold addDays.
      split; [unfold MS_PER_DAY in *; lia|].
      rewrite Z.mod_add by (unfold MS_PER_DAY; lia). exact Hmod.
  - destruct (_ && _) eqn:E.
    + intros H. injection H as <-. apply andb_true_iff in E as [_ E].
      rewrite Z.gtb_ltb, Z.ltb_lt in E. split; [unfold MS_PER_DAY in *; lia | exact Hmod].
    + destruct (nextOccurrenceLoop _ _ _ _) as [[o|]|e] eqn:El; try discriminate.
      intros H. injection H as <-.
      apply (nextOccurrenceLoop_preserves
               (fun o => now < o <= now + 7 * MS_PER_DAY /\
                         o mod MS_PER_DAY = h * MS_PER_HOUR + m * MS_PER_MINUTE)
               (d :: rest) time now None); [| discriminate | exact El].
      intros d' o' _ Ho. pose proof (getNextWeekdayOccurrence_window _ _ _ _ _ _ Hp Ho). tauto.
Qed.

Lemma getNextAlarmTime_earliest_gen (time : string) (repeats : list WeekDay) (now t : Z) :
  repeats <> [] ->
  getNextAlarmTime time repeats now = Ok t ->
  (exists d, In d repeats /\ getNextWeekdayOccurrence d time now = Ok t) /\
  (forall d o, In d repeats -> getNextWeekdayOccurrence d time now = Ok o -> t <= o).
Proof.
  intros Hne. unfold getNextAlarmTime.
  destruct (parseTimeString time) as [[h m]|e] eqn:Hp; [|discriminate].
  destruct repeats as [|d0 rest] eqn:Er; [congruence|]. rewrite <- Er.
  destruct (_ && _) eqn:E.
  - intros H. injection H as <-. apply andb_true_iff in E as [Ein E].
    rewrite Z.gtb_ltb, Z.ltb_lt in E.
    apply existsb_exists in Ein as [x [Hx Heq]]. apply WeekDay_eqb_eq in Heq. subst x.
    split.
    + exists (NUMBER_TO_WEEKDAY (getDay now)). split; [exact Hx|].
      apply getNextWeekdayOccurrence_today; [exact Hp | lia].
    + intros d o _ Ho. apply (getNextWeekdayOccurrence_window _ _ _ _ _ _ Hp Ho).
  - destruct (nextOccurrenceLoop _ _ _ _) as [[o|]|e] eqn:El; try discriminate.
    intros H. injection H as <-.
    apply nextOccurrenceLoop_min in El as (Hw & _ & Hall).
    split; [destruct Hw as [Hw|Hw]; [discriminate | exact Hw] | exact Hall].
Qed.

Lemma getNextAlarmTime_result_gen (time : string)
    (repeats : list WeekDay) (now : Z) :
  (forall e, getNextAlarmTime time repeats now = Err e ->
     e = INVALID_TIME /\ isValidTimeString time = false) /\
  (isValidTimeString time = true -> exists t, getNextAlarmTime time repeats now = Ok t).
Proof.
  unfold isValidTimeString.
  destruct (parseTimeString time) as [[h m]|e0] eqn:Hp.
  - assert (Hok : exists t, getNextAlarmTime time repeats now = Ok t).
    { unfold getNextAlarmTime. rewrite Hp. destruct repeats as [|d rest].
      - destruct (_ >? _); eauto.
      - destruct (_ && _); [eauto|].
        destruct (nextOccurrenceLoop_weekday (d :: rest) (d :: rest) time now h m None Hp)
          as (t & Ht & _); [tauto | discriminate | right; discriminate |].
        rewrite Ht. eauto. }
    split; [|intros _; exact Hok].
    intros e He. destruct Hok as [t Ht]. congruence.
  - assert (e0 = INVALID_TIME) as ->.
    { revert Hp. unfold parseTimeString.
      destruct (parseInt (split_colon time !! 0%nat)), (parseInt (split_colon time !! 1%nat));
        try (intros H; injection H as <-; reflexivity).
      destruct (_ || _); intros H; [injection H as <-; reflexivity | discriminate]. }
    split; [|discriminate].
    intros e He. unfold getNextAlarmTime in He. rewrite Hp in He. injection He as <-. auto.
Qed.

(** X4: [isAlarmDueToday] holds exactly when the next occurrence of the time, as a one-time alarm, falls on the current day. *)
Theorem isAlarmDueToday_iff_next_today (time : string) (now : Z) :
  isAlarmDueToday time now = true <->
  exists t, getNextAlarmTime time [] now = Ok t /\ toDateString t = toDateString now.
Proof.
  unfold isAlarmDueToday, getNextAlarmTime, toDateString.
  destruct (parseTimeString time) as [[h m]|e] eqn:Hp.
  - pose proof (parseTimeString_range _ _ _ Hp) as [Hh Hm].
    destruct (setHours now h m >? now) eqn:E.
    + split; [|reflexivity]. intros _. exists (setHours now h m).
      split; [reflexivity | apply setHours_div; assumption].
    + split; [discriminate|]. intros (t & Ht & Hday). injection Ht as <-.
      rewrite addDays_div, setHours_div in Hday by assumption. lia.
  - split; [discriminate|]. intros (t & Ht & _). discriminate.
Qed.

(* ------------------------------------------------------------------ *)
(** ** Formatting round trips *)

Lemma range_check (P : Z -> bool) (n : nat) :
  forallb P (map Z.of_nat (seq 0 n)) = true -> forall x, 0 <= x < Z.of_nat n -> P x = true.
Proof.
  intros H x Hx. rewrite List.forallb_forall in H. apply H. apply in_map_iff.
  exists (Z.to_nat x). split; [lia|]. apply in_seq. lia.
Qed.



Lemma parses_to_spec s h m : parses_to s h m = true -> parseTimeString s = Ok (h, m).
Proof.
  unfold parses_to. destruct (parseTimeString s) as [[h' m']|]; [|discriminate].
  intros H. apply andb_true_iff in H as [H1 H2]. apply Z.eqb_eq in H1, H2. subst. reflexivity.
Qed.

Lemma format24_ok (h m : Z) :
  0 <= h <= 23 -> 0 <= m <= 59 ->
  is_HHmm_shape (format24 h m) = true /\ parseTimeString (format24 h m) = Ok (h, m).
Proof.
  intros Hh Hm.
  assert (Hall : forall h, 0 <= h < Z.of_nat 24 ->
            forallb (fun m => is_HHmm_shape (format24 h m) && parses_to (format24 h m) h m)
                    (map Z.of_nat (seq 0 60)) = true).
  { apply range_check. vm_compute. reflexivity. }
  specialize (Hall h ltac:(lia)).
  pose proof (range_check _ 60 Hall m ltac:(lia)) as H. cbv beta in H.
  apply andb_true_iff in H as [H1 H2]. split; [exact H1 | apply parses_to_spec; exact H2].
Qed.

(** X5: for a valid time the 24-hour format is a zero-padded HH:mm text that parses back to the same hour and minute; an invalid time is returned unchanged. *)
Theorem formatAlarmTime_24h_normalizes (time : string) :
  (isValidTimeString time = true ->
     is_HHmm_shape (formatAlarmTime time true) = true /\
     parseTimeString (formatAlarmTime time true) = parseTimeString time) /\
  (isValidTimeString time = false -> formatAlarmTime time true = time).
Proof.
  unfold isValidTimeString, formatAlarmTime.
  destruct (parseTimeString time) as [[h m]|e] eqn:Hp; [|split; [discriminate | reflexivity]].
  split; [|discriminate]. intros _.
  pose proof (parseTimeString_range _ _ _ Hp) as [Hh Hm].
  exact (format24_ok h m Hh Hm).
Qed.





Lemma format12_read (h m : Z) :
  0 <= h <= 23 -> 0 <= m <= 59 -> read12 (format12 h m) = Some (h, m).
Proof.
  intros Hh Hm.
  assert (Hall : forall h, 0 <= h < Z.of_nat 24 ->
            forallb (fun m => reads12_to (format12 h m) h m) (map Z.of_nat (seq 0 60)) = true).
  { apply range_check. vm_compute. reflexivity. }
  specialize (Hall h ltac:(lia)).
  pose proof (range_check _ 60 Hall m ltac:(lia)) as H. cbv beta in H.
  unfold reads12_to in H. destruct (read12 (format12 h m)) as [[h' m']|]; [|discriminate].
  apply andb_true_iff in H as [H1 H2]. apply Z.eqb_eq in H1, H2. subst. reflexivity.
Qed.

(** X6: two valid times with the same 12-hour text have the same hour and minute: the AM/PM text loses nothing. *)
Theorem formatAlarmTime_12h_injective (t1 t2 : string) :
  isValidTimeString t1 = true -> isValidTimeString t2 = true ->
  formatAlarmTime t1 false = formatAlarmTime t2 false ->
  parseTimeString t1 = parseTimeString t2.
Proof.
  unfold isValidTimeString, formatAlarmTime.
  destruct (parseTimeString t1) as [[h1 m1]|] eqn:H1; [|discriminate].
  destruct (parseTimeString t2) as [[h2 m2]|] eqn:H2; [|discriminate].
  intros _ _ Heq.
  apply parseTimeString_range in H1 as [Hh1 Hm1]. apply parseTimeString_range in H2 as [Hh2 Hm2].
  pose proof (format12_read h1 m1 Hh1 Hm1) as R1. pose proof (format12_read h2 m2 Hh2 Hm2) as R2.
  unfold format12 in R1, R2. rewrite Heq in R1. rewrite R1 in R2. congruence.
Qed.

Lemma getHours_range (t : Z) : 0 <= getHours t <= 23.
Proof.
  unfold getHours, MS_PER_DAY, MS_PER_HOUR.
  pose proof (Z.mod_pos_bound t 86400000 ltac:(lia)).
  split; [apply Z.div_pos; lia|]. apply Z.lt_succ_r, Z.div_lt_upper_bound; lia.
Qed.

Lemma getMinutes_range (t : Z) : 0 <= getMinutes t <= 59.
Proof.
  unfold getMinutes, MS_PER_HOUR, MS_PER_MINUTE.
  pose proof (Z.mod_pos_bound t 3600000 ltac:(lia)).
  split; [apply Z.div_pos; lia|]. apply Z.lt_succ_r, Z.div_lt_upper_bound; lia.
Qed.

(** X7: [formatDateToTime] gives an HH:mm text that parses back to the local hour and minute of the date, and [setHours] of those truncates the date to its minute. *)
Theorem formatDateToTime_roundtrip (date : Z) :
  is_HHmm_shape (formatDateToTime date) = true /\
  parseTimeString (formatDateToTime date) = Ok (getHours date, getMinutes date) /\
  setHours date (getHours date) (getMinutes date) = date - date mod MS_PER_MINUTE.
Proof.
  pose proof (format24_ok (getHours date) (getMinutes date) (getHours_range date)
                (getMinutes_range date)) as [H1 H2].
  split; [exact H1|]. split; [exact H2|].
  unfold setHours, getHours, getMinutes, MS_PER_DAY, MS_PER_HOUR, MS_PER_MINUTE.
  pose proof (Z.mod_mod_divide date 86400000 3600000 ltac:(exists 24; reflexivity)).
  pose proof (Z.mod_mod_divide date 3600000 60000 ltac:(exists 60; reflexivity)).
  pose proof (Z.div_mod date 86400000 ltac:(lia)).
  pose proof (Z.div_mod (date mod 86400000) 3600000 ltac:(lia)).
  pose proof (Z.div_mod (date mod 3600000) 60000 ltac:(lia)).
  lia.
Qed.

(* ------------------------------------------------------------------ *)
(** ** Time remaining *)

Lemma one_time_within_day (time : string) (now t : Z) :
  getNextAlarmTime time [] now = Ok t -> t - now <= MS_PER_DAY.
Proof.
  unfold getNextAlarmTime. destruct (parseTimeString time) as [[h m]|] eqn:Hp; [|discriminate].
  pose proof (parseTimeString_range _ _ _ Hp) as [Hh Hm].
  pose proof (time_offset_bounds h m Hh Hm). pose proof (day_start_bounds now).
  pose proof (setHours_split now h m).
  destruct (setHours now h m >? now) eqn:E; intros Ht; injection Ht as <-;
    [|unfold addDays; rewrite Z.gtb_ltb, Z.ltb_ge in E]; lia.
Qed.

(** X8: for an invalid time [getTimeRemaining] is all zeros; otherwise the total is the whole minutes until the next occurrence, split into hours and minutes below 60, and at most one day (one-time) or seven days (repeating). *)
Theorem getTimeRemaining_bounds (alarm : Alarm) (now : Z) :
  (isValidTimeString (time alarm) = false -> getTimeRemaining alarm now = mkTimeRemaining 0 0 0) /\
  (isValidTimeString (time alarm) = true ->
     exists t, getNextAlarmTime (time alarm) (repeats alarm) now = Ok t /\
       tr_total (getTimeRemaining alarm now) = (t - now) / MS_PER_MINUTE /\
       tr_hours (getTimeRemaining alarm now) * 60 + tr_minutes (getTimeRemaining alarm now)
         = tr_total (getTimeRemaining alarm now) /\
       0 <= tr_minutes (getTimeRemaining alarm now) < 60 /\
       0 <= tr_total (getTimeRemaining alarm now)
         <= match repeats alarm with [] => 1440 | _ => 7 * 1440 end).
Proof.
  destruct (getNextAlarmTime_result_gen (time alarm) (repeats alarm) now)
    as [Herr Hok].
  split.
  - intros Hinv. unfold getTimeRemaining, isValidTimeString in *.
    unfold getNextAlarmTime. destruct (parseTimeString (time alarm)); [discriminate | reflexivity].
  - intros Hv. destruct (Hok Hv) as [t Ht]. exists t. split; [exact Ht|].
    unfold isValidTimeString in Hv.
    destruct (parseTimeString (time alarm)) as [[h m]|] eqn:Hp; [|discriminate].
    destruct (getNextAlarmTime_window_gen _ _ _ _ _ _ Hp Ht) as [[Hlt Hle] _].
    assert (Hbound : t - now <= match repeats alarm with [] => 1 | _ => 7 end * MS_PER_DAY).
    { destruct (repeats alarm) eqn:Er; [|lia]. apply one_time_within_day in Ht. lia. }
    unfold getTimeRemaining. rewrite Ht.
    replace (t - now <=? 0) with false by (symmetry; apply Z.leb_gt; lia). cbn [tr_total tr_hours tr_minutes].
    unfold MS_PER_MINUTE. replace (1000 * 60) with 60000 by reflexivity.
    pose proof (Z.div_mod ((t - now) / 60000) 60 ltac:(lia)).
    pose proof (Z.mod_pos_bound ((t - now) / 60000) 60 ltac:(lia)).
    split; [reflexivity|]. split; [lia|]. split; [lia|].
    split; [apply Z.div_pos; lia|].
    unfold MS_PER_DAY in Hbound.
    destruct (repeats alarm); apply Z.div_le_upper_bound; lia.
Qed.

(* ------------------------------------------------------------------ *)
(** ** Next-trigger properties *)

(** X1: whenever [getNextAlarmTime] returns an instant for a time that parses to [(h, m)], the instant lies strictly after [now], at most seven days after it, and at [h:m] of its day. *)
Theorem getNextAlarmTime_window (time : string) (repeats : list WeekDay) (now h m t : Z) :
  parseTimeString time = Ok (h, m) ->
  getNextAlarmTime time repeats now = Ok t ->
  now < t <= now + 7 * MS_PER_DAY /\
  t mod MS_PER_DAY = h * MS_PER_HOUR + m * MS_PER_MINUTE.
Proof. apply getNextAlarmTime_window_gen. Qed.

(** X2: with a non-empty repeat set the returned instant is the occurrence of one of the repeat days, and no repeat day has an earlier occurrence. *)
Theorem getNextAlarmTime_earliest (time : string) (repeats : list WeekDay) (now t : Z) :
  repeats <> [] ->
  getNextAlarmTime time repeats now = Ok t ->
  (exists d, In d repeats /\ getNextWeekdayOccurrence d time now = Ok t) /\
  (forall d o, In d repeats -> getNextWeekdayOccurrence d time now = Ok o -> t <= o).
Proof. apply getNextAlarmTime_earliest_gen. Qed.

(** X3: [getNextAlarmTime] fails only with [INVALID_TIME], only for a time that [isValidTimeString] rejects, and returns an instant for every time it accepts, whatever the repeat days. *)
Theorem getNextAlarmTime_fails_only_on_invalid_time (time : string)
    (repeats : list WeekDay) (now : Z) :
  (forall e, getNextAlarmTime time repeats now = Err e ->
     e = INVALID_TIME /\ isValidTimeString time = false) /\
  (isValidTimeString time = true -> exists t, getNextAlarmTime time repeats now = Ok t).
Proof. apply getNextAlarmTime_result_gen. Qed.

(* ------------------------------------------------------------------ *)
(** ** Descriptions *)

(** X9: [getAlarmDescription] returns the raw time when it is invalid; for a one-time alarm it says Today or Tomorrow according to [isAlarmDueToday]; otherwise it is Today, Tomorrow or one of the repeat days, followed by the 12-hour time. *)
Theorem getAlarmDescription_cases (alarm : Alarm) (now : Z) :
  (isValidTimeString (time alarm) = false -> getAlarmDescription alarm now = time alarm) /\
  (isValidTimeString (time alarm) = true -> repeats alarm = [] ->
     getAlarmDescription alarm now =
       ((if isAlarmDueToday (time alarm) now then "Today at " else "Tomorrow at ")
         ++ formatAlarmTime (time alarm) false)%string) /\
  (isValidTimeString (time alarm) = true ->
     exists prefix, getAlarmDescription alarm now = (prefix ++ " at " ++ formatAlarmTime (time alarm) false)%string /\
       (prefix = "Today"%string \/ prefix = "Tomorrow"%string \/
        exists d, In d (repeats alarm) /\ prefix = WeekDay_to_string d)).
Proof.
  unfold isValidTimeString, getAlarmDescription, isAlarmDueToday, toDateString.
  destruct (parseTimeString (time alarm)) as [[h m]|e] eqn:Hp.
  2:{ split; [|split; discriminate]. intros _. unfold getNextAlarmTime, formatAlarmTime.
      rewrite Hp. reflexivity. }
  pose proof (parseTimeString_range _ _ _ Hp) as [Hh Hm].
  destruct (getNextAlarmTime_result_gen (time alarm) (repeats alarm) now) as [_ Hok].
  unfold isValidTimeString in Hok. rewrite Hp in Hok. destruct (Hok eq_refl) as [t Ht].
  rewrite Ht. split; [discriminate|]. split.
  - intros _ Hr. rewrite Hr in Ht. unfold getNextAlarmTime in Ht. rewrite Hp in Ht.
    unfold addDays in *.
    destruct (setHours now h m >? now) eqn:E; injection Ht as <-.
    + rewrite setHours_div by assumption. rewrite Z.eqb_refl. reflexivity.
    + pose proof (addDays_div (setHours now h m) 1) as Hd. unfold addDays in Hd.
      rewrite Hd, setHours_div by assumption.
      pose proof (addDays_div now 1) as Hd'. unfold addDays in Hd'. rewrite Hd'.
      replace (now / MS_PER_DAY + 1 =? now / MS_PER_DAY) with false by (symmetry; apply Z.eqb_neq; lia).
      rewrite Z.eqb_refl. reflexivity.
  - intros _.
    destruct (t / MS_PER_DAY =? now / MS_PER_DAY) eqn:E1;
      [exists "Today"%string; split; [reflexivity | tauto]|].
    destruct (t / MS_PER_DAY =? addDays now 1 / MS_PER_DAY) eqn:E2;
      [exists "Tomorrow"%string; split; [reflexivity | tauto]|].
    exists (WeekDay_to_string (NUMBER_TO_WEEKDAY (getDay t))). split; [reflexivity|].
    right; right. exists (NUMBER_TO_WEEKDAY (getDay t)). split; [|reflexivity].
    destruct (repeats alarm) as [|d0 rest] eqn:Er.
    + exfalso. rewrite addDays_div in E2. apply Z.eqb_neq in E1, E2.
      unfold getNextAlarmTime in Ht. rewrite Hp in Ht.
      destruct (setHours now h m >? now); injection Ht as <-;
        [rewrite setHours_div in E1 by assumption
        |rewrite addDays_div, setHours_div in E2 by assumption]; lia.
    + rewrite <- Er in Ht.
      destruct (getNextAlarmTime_earliest_gen (time alarm) (repeats alarm) now t ltac:(rewrite Er; discriminate) Ht) as [(d & Hd & Ho) _].
      rewrite Er in Hd. rewrite (getNextWeekdayOccurrence_weekday _ _ _ _ Ho). exact Hd.
Qed.

(* ------------------------------------------------------------------ *)
(** ** SchedulerService: validation and rescheduling *)

Lemma trimEnd_blank_no_colon (s : string) :
  trimEnd s = EmptyString -> split_colon s = [s].
Proof.
  induction s as [|c r IH]; [reflexivity|]. cbn.
  destruct (trimEnd r) eqn:Er; [|discriminate].
  destruct (is_js_space c) eqn:Ec; [|discriminate]. intros _.
  rewrite IH by reflexivity.
  destruct (Ascii.eqb c ":"%char) eqn:Ecol; [|reflexivity].
  apply Ascii.eqb_eq in Ecol. subst c. discriminate.
Qed.

Lemma trim_blank_no_colon (s : string) :
  trim s = EmptyString -> split_colon s = [s].
Proof.
  unfold trim. induction s as [|c r IH]; [reflexivity|]. cbn [trimStart].
  destruct (is_js_space c) eqn:Ec.
  - intros H. cbn. rewrite IH by exact H.
    destruct (Ascii.eqb c ":"%char) eqn:Ecol; [|reflexivity].
    apply Ascii.eqb_eq in Ecol. subst c. discriminate.
  - apply trimEnd_blank_no_colon.
Qed.

Lemma trim_blank_invalid (s : string) :
  trim s = EmptyString -> isValidTimeString s = false.
Proof.
  intros H. unfold isValidTimeString, parseTimeString.
  rewrite (trim_blank_no_colon s H). cbn.
  destruct (parseInt (Some s)); reflexivity.
Qed.

(** X10: [validateAlarm] accepts exactly the enabled alarms whose time [isValidTimeString] accepts; its empty and blank checks reject nothing more. *)
Theorem validateAlarm_iff (alarm : Alarm) (now : Z) :
  validateAlarm alarm now = isEnabled alarm && isValidTimeString (time alarm).
Proof.
  unfold validateAlarm. destruct (isEnabled alarm); [|reflexivity]. cbn.
  destruct (getNextAlarmTime_result_gen (time alarm) (repeats alarm) now) as [Herr Hok].
  destruct (String.eqb (time alarm) EmptyString) eqn:E1.
  - apply String.eqb_eq in E1. rewrite E1. reflexivity.
  - destruct (String.eqb (trim (time alarm)) EmptyString) eqn:E2; cbn.
    + apply String.eqb_eq in E2. symmetry. apply trim_blank_invalid. exact E2.
    + destruct (getNextAlarmTime (time alarm) (repeats alarm) now) as [t|e] eqn:Eg.
      * destruct (isValidTimeString (time alarm)) eqn:Ev; [reflexivity|].
        unfold isValidTimeString, getNextAlarmTime in *.
        destruct (parseTimeString (time alarm)); discriminate.
      * symmetry. exact (proj2 (Herr e eq_refl)).
Qed.

(** X11: [rescheduleAlarm] leaves the alarm lists alone and always cancels the old request first: on success one request for the alarm is appended, on failure it reports "Failed to reschedule alarm" with the old request already gone. *)
Theorem rescheduleAlarm_cancels_first (alarm : Alarm) (now : Z) (s s' : AppState)
    (r : result NotificationId) :
  rescheduleAlarm alarm now s = (r, s') ->
  alarms s' = alarms s /\ storage s' = storage s /\
  match r with
  | Ok nid => nid = nextIdentifier (notifier s) /\
      exists trig, scheduled (notifier s') =
        cancelled (notificationId alarm) (scheduled (notifier s)) ++
          [mkScheduled nid (mkNotificationData (id alarm) false (label alarm) None) trig]
  | Err e => e = "Failed to reschedule alarm"%string /\
      scheduled (notifier s') = cancelled (notificationId alarm) (scheduled (notifier s))
  end.
Proof.
  unfold rescheduleAlarm, catch, bind, ret, throw.
  destruct (cancelIfAny (notificationId alarm) s) as [r1 s1] eqn:E1.
  apply cancelIfAny_spec in E1 as (-> & Ha1 & Hs1 & Hc1 & Hn1).
  destruct (scheduleAlarm alarm now s1) as [r2 s2] eqn:E2.
  apply scheduleAlarm_spec in E2 as (Ha2 & Hs2 & H2).
  destruct r2 as [nid|e]; intros H; injection H as <- <-.
  - cbn in H2. destruct H2 as [Hn [_ [trig Htr]]]. subst nid. rewrite Ha2, Hs2, Ha1, Hs1.
    split; [reflexivity|]. split; [reflexivity|]. split; [exact Hn1|]. exists trig. rewrite Htr, Hc1. reflexivity.
  - cbn in H2. destruct H2 as [Htr _]. rewrite Ha2, Hs2, Ha1, Hs1, Htr, Hc1. auto.
Qed.

(* ------------------------------------------------------------------ *)
(** ** Settings *)


(* ------------------------------------------------------------------ *)
(** ** Repeat-day picker and labels *)

Lemma includes_In (l : list WeekDay) (d : WeekDay) : includes l d = true <-> In d l.
Proof.
  unfold includes. rewrite existsb_exists. split.
  - intros [x [Hx Heq]]. apply WeekDay_eqb_eq in Heq. subst. exact Hx.
  - intros H. exists d. split; [exact H | apply WeekDay_eqb_eq; reflexivity].
Qed.

(** X13: [toggleDay] flips the membership of the given day, keeps every other day, and never introduces a duplicate. *)
Theorem toggleDay_spec (sel : list WeekDay) (day : WeekDay) :
  (In day (toggleDay sel day) <-> ~ In day sel) /\
  (forall d, d <> day -> (In d (toggleDay sel day) <-> In d sel)) /\
  (List.NoDup sel -> List.NoDup (toggleDay sel day)).
Proof.
  unfold toggleDay. destruct (includes sel day) eqn:E.
  - apply includes_In in E. split; [|split].
    + rewrite List.filter_In. split; [|tauto].
      intros [_ H]. rewrite (proj2 (WeekDay_eqb_eq day day) eq_refl) in H. discriminate.
    + intros d Hd. rewrite List.filter_In. split; [tauto|]. intros H. split; [exact H|].
      destruct (WeekDay_eqb d day) eqn:Eq; [apply WeekDay_eqb_eq in Eq; congruence | reflexivity].
    + apply List.NoDup_filter.
  - assert (~ In day sel) as Hn by (rewrite <- includes_In; congruence).
    split; [|split].
    + rewrite List.in_app_iff. cbn. tauto.
    + intros d Hd. rewrite List.in_app_iff. cbn. split; [|tauto]. intros [H|[H|[]]]; congruence.
    + intros Hnd. apply List.NoDup_app; [exact Hnd | |].
      * constructor; [intros []|constructor].
      * intros x Hx [<-|[]]. exact (Hn Hx).
Qed.

Lemma same_days_by_length (r S : list WeekDay) :
  List.NoDup r -> List.NoDup S ->
  ((forall d, In d r <-> In d S) <-> length r = length S /\ forallb (includes r) S = true).
Proof.
  intros Hr HS. rewrite List.forallb_forall. split.
  - intros H. split.
    + apply Nat.le_antisymm; apply List.NoDup_incl_length; try assumption; intros d; apply H.
    + intros d Hd. apply includes_In, H, Hd.
  - intros [Hlen Hinc].
    assert (Hsr : List.incl S r) by (intros d Hd; apply includes_In, Hinc, Hd).
    assert (Hrs : List.incl r S) by (apply List.NoDup_length_incl; [exact HS | lia | exact Hsr]).
    intros d; split; [apply Hrs | apply Hsr].
Qed.

Lemma all_days_by_length (r : list WeekDay) :
  List.NoDup r -> ((forall d, In d r) <-> length r = 7%nat).
Proof.
  intros Hr.
  assert (HW : List.NoDup WEEK_DAYS) by (repeat constructor; cbn; intuition discriminate).
  assert (Hall : forall d, In d WEEK_DAYS) by (intros []; cbn; tauto).
  pose proof (same_days_by_length r WEEK_DAYS Hr HW) as H.
  split.
  - intros Hin. apply H. intros d. split; [intros _; apply Hall | intros _; apply Hin].
  - intros Hlen d.
    assert (Hinc : List.incl WEEK_DAYS r)
      by (apply List.NoDup_length_incl; [exact Hr | cbn; lia | intros x _; apply Hall]).
    apply Hinc, Hall.
Qed.

(** X14: for a repeat list without duplicates, [renderRepeatDays] shows One-time alarm, Every day, Weekdays or Weekends exactly when the list is empty, has all days, is Mon-Fri or is Sat-Sun. *)
Theorem renderRepeatDays_labels (r : list WeekDay) :
  List.NoDup r ->
  (renderRepeatDays r = RepeatText "One-time alarm" <-> r = []) /\
  (renderRepeatDays r = RepeatText "Every day" <-> forall d, In d r) /\
  (renderRepeatDays r = RepeatText "Weekdays" <-> forall d, In d r <-> In d [Mon; Tue; Wed; Thu; Fri]) /\
  (renderRepeatDays r = RepeatText "Weekends" <-> forall d, In d r <-> In d [Sat; Sun]).
Proof.
  intros Hr.
  rewrite (all_days_by_length r Hr).
  rewrite (same_days_by_length r [Mon; Tue; Wed; Thu; Fri] Hr)
    by (repeat constructor; cbn; intuition discriminate).
  rewrite (same_days_by_length r [Sat; Sun] Hr)
    by (repeat constructor; cbn; intuition discriminate).
  assert (H0 : r = [] <-> length r = 0%nat)
    by (split; [intros ->; reflexivity | destruct r; [reflexivity | discriminate]]).
  rewrite H0. cbn [length].
  unfold renderRepeatDays.
  destruct (Nat.eqb_spec (length r) 0), (Nat.eqb_spec (length r) 7),
    (Nat.eqb_spec (length r) 5), (Nat.eqb_spec (length r) 2),
    (forallb (includes r) [Mon; Tue; Wed; Thu; Fri]),
    (forallb (includes r) [Sat; Sun]);
    cbn; intuition (try discriminate; try lia).
Qed.

(* ------------------------------------------------------------------ *)
(** ** StorageService *)







(* ------------------------------------------------------------------ *)
(** ** Memory and storage in sync *)




Lemma NoDup_map_id_snoc (l : list Alarm) (b : Alarm) :
  List.NoDup (map id l) -> findAlarm (id b) l = None -> List.NoDup (map id (l ++ [b])).
Proof.
  intros Hnd Hf. rewrite List.map_app. apply List.NoDup_app; [exact Hnd | repeat constructor; intros [] |].
  intros x Hx [<-|[]]. apply List.in_map_iff in Hx as (c & Hc & Hin).
  unfold findAlarm in Hf. apply (List.find_none _ _ Hf) in Hin. rewrite Hc, String.eqb_refl in Hin.
  discriminate.
Qed.

(** X20: [addAlarm] with an unused id keeps the in-memory list equal to the stored list with unique ids, whether or not it succeeds. *)
Theorem addAlarm_Sync (alarmInput : AlarmInput) (newId : string) (now : Z) (s : AppState) :
  Sync s -> findAlarm newId (alarms s) = None ->
  Sync (snd (addAlarm alarmInput newId now s)).
Proof.
  intros [Heq Hnd] Hf. destruct (addAlarm alarmInput newId now s) as [r s'] eqn:H. cbn.
  unfold addAlarm, Storage_addAlarm, setStorage, setError, setAlarms, catch, bind, get,
    ret, throw in H.
  crush_in H.
  all: try (injection H as <- <-).
  all: repeat match goal with
       | E : scheduleAlarm _ _ _ = (_, _) |- _ => apply scheduleAlarm_spec in E
       end; cbn in *; destruct_conjs; subst.
  all: unfold Sync; cbn.
  all: try (split; [congruence | congruence]).
  all: repeat match goal with
       | E : alarms ?x = alarms ?y |- _ => rewrite E in *; clear E
       | E : storage ?x = storage ?y |- _ => rewrite E in *; clear E
       end.
  all: split; [congruence | apply NoDup_map_id_snoc; [exact Hnd | exact Hf]].
Qed.

(* ------------------------------------------------------------------ *)
(** ** Deleting an alarm *)



Lemma cancelIfAny_eq (n : option NotificationId) (s : AppState) :
  cancelIfAny n s =
    (Ok tt, mkAppState (alarms s) (storage s) (error s)
              (mkNotifier (cancelled n (scheduled (notifier s))) (nextIdentifier (notifier s))
                          (scheduleOutcomes (notifier s)))).
Proof. destruct n; [reflexivity | destruct s as [? ? ? []]; reflexivity]. Qed.



(* ------------------------------------------------------------------ *)
(** ** Dismiss and snooze handlers *)



Lemma cancelled_removes (t : NotificationId) (l : list ScheduledNotification) :
  ~ In t (map sn_identifier (cancelled (Some t) l)).
Proof.
  cbn. intros Hin. apply List.in_map_iff in Hin as (r & Hr & Hin).
  apply List.filter_In in Hin as [_ H]. rewrite Hr, Nat.eqb_refl in H. discriminate.
Qed.



(** X23: when dismissing an enabled repeating alarm and the notifier refuses the new request, the handler swallows the error and the alarm stays enabled with its old token, whose request it has already cancelled. *)
Theorem onDismiss_refused_reschedule_keeps_stale_token (alarmId : string) (now : Z)
    (s : AppState) (a : Alarm) (t : NotificationId) (rest : list bool) :
  findAlarm alarmId (alarms s) = Some a -> repeats a <> [] -> isEnabled a = true ->
  notificationId a = Some t -> scheduleOutcomes (notifier s) = false :: rest ->
  let (r, s') := onDismiss alarmId now s in
  r = Ok tt /\ alarms s' = alarms s /\ storage s' = storage s /\ error s' = error s /\
  ~ In t (identifiers (notifier s')).
Proof.
  intros Hf Hr He Ht Hout.
  unfold onDismiss, getAlarmById, catch, bind, get, ret. cbn. rewrite Hf. cbn.
  rewrite cancelIfAny_eq. destruct (repeats a) as [|d ds] eqn:Er; [congruence|]. cbn.
  unfold rescheduleRepeatingAlarm, catch, bind, ret, throw. rewrite Er, He. cbn.
  unfold scheduleAlarm, calculateNextTrigger, NotificationService_scheduleNotification,
    liftN, scheduleNotificationAsync, catch, bind, ret, throw. cbn.
  destruct (getNextAlarmTime (time a) (repeats a) now); cbn; [rewrite Hout; cbn|];
    (split; [reflexivity|]); (split; [reflexivity|]); (split; [reflexivity|]);
    (split; [reflexivity|]); unfold identifiers; cbn; rewrite Ht; apply cancelled_removes.
Qed.


(* ------------------------------------------------------------------ *)
(** ** Witnesses of the further properties *)

(** X1 at 07:30 on Mondays and Fridays, asked on Monday 2025-10-20 at 10:00 UTC. *)
Lemma getNextAlarmTime_window_witness :
  parseTimeString "07:30" = Ok (7, 30) /\
  getNextAlarmTime "07:30" [Mon; Fri] 1760954400000 = Ok 1761291000000 /\
  1760954400000 < 1761291000000 <= 1760954400000 + 7 * MS_PER_DAY /\
  1761291000000 mod MS_PER_DAY = 7 * MS_PER_HOUR + 30 * MS_PER_MINUTE.
Proof.
  split; [vm_compute; reflexivity|].
  split; [vm_compute; reflexivity|].
  apply (getNextAlarmTime_window "07:30" [Mon; Fri] 1760954400000 7 30 1761291000000);
    vm_compute; reflexivity.
Defined.

(** X2 on the same input. *)
Lemma getNextAlarmTime_earliest_witness :
  [Mon; Fri] <> [] /\
  getNextAlarmTime "07:30" [Mon; Fri] 1760954400000 = Ok 1761291000000 /\
  (exists d, In d [Mon; Fri] /\ getNextWeekdayOccurrence d "07:30" 1760954400000 = Ok 1761291000000) /\
  (forall d o, In d [Mon; Fri] -> getNextWeekdayOccurrence d "07:30" 1760954400000 = Ok o -> 1761291000000 <= o).
Proof.
  split; [discriminate|].
  split; [vm_compute; reflexivity|].
  apply (getNextAlarmTime_earliest "07:30" [Mon; Fri] 1760954400000 1761291000000);
    [discriminate | vm_compute; reflexivity].
Defined.

(** X6 on "7:30" and "07:30", both shown as 7:30 AM. *)
Lemma formatAlarmTime_12h_injective_witness :
  isValidTimeString "7:30" = true /\ isValidTimeString "07:30" = true /\
  formatAlarmTime "7:30" false = formatAlarmTime "07:30" false /\
  parseTimeString "7:30" = parseTimeString "07:30".
Proof.
  split; [vm_compute; reflexivity|].
  split; [vm_compute; reflexivity|].
  split; [vm_compute; reflexivity|].
  apply formatAlarmTime_12h_injective; vm_compute; reflexivity.
Defined.

(** X11 with a notifier that refuses the new request. *)
Lemma rescheduleAlarm_cancels_first_witness :
  let c := rescheduleAlarm (demo_alarm true (Some 0%nat)) 1760954400000 refusing_token_state in
  c = (fst c, snd c) /\
  alarms (snd c) = alarms refusing_token_state /\ storage (snd c) = storage refusing_token_state /\
  match fst c with
  | Ok nid => nid = nextIdentifier (notifier refusing_token_state) /\
      exists trig, scheduled (notifier (snd c)) =
        cancelled (notificationId (demo_alarm true (Some 0%nat))) (scheduled (notifier refusing_token_state)) ++
          [mkScheduled nid (mkNotificationData (id (demo_alarm true (Some 0%nat))) false
                              (label (demo_alarm true (Some 0%nat))) None) trig]
  | Err e => e = "Failed to reschedule alarm"%string /\
      scheduled (notifier (snd c)) =
        cancelled (notificationId (demo_alarm true (Some 0%nat))) (scheduled (notifier refusing_token_state))
  end.
Proof.
  intros c. split; [apply surjective_pairing|].
  apply (rescheduleAlarm_cancels_first (demo_alarm true (Some 0%nat)) 1760954400000
           refusing_token_state (snd c) (fst c)).
  apply surjective_pairing.
Defined.

(** X14 on Monday to Friday. *)
Lemma renderRepeatDays_labels_witness :
  List.NoDup [Mon; Tue; Wed; Thu; Fri] /\
  (renderRepeatDays [Mon; Tue; Wed; Thu; Fri] = RepeatText "One-time alarm" <-> [Mon; Tue; Wed; Thu; Fri] = []) /\
  (renderRepeatDays [Mon; Tue; Wed; Thu; Fri] = RepeatText "Every day" <-> forall d, In d [Mon; Tue; Wed; Thu; Fri]) /\
  (renderRepeatDays [Mon; Tue; Wed; Thu; Fri] = RepeatText "Weekdays" <->
     forall d, In d [Mon; Tue; Wed; Thu; Fri] <-> In d [Mon; Tue; Wed; Thu; Fri]) /\
  (renderRepeatDays [Mon; Tue; Wed; Thu; Fri] = RepeatText "Weekends" <->
     forall d, In d [Mon; Tue; Wed; Thu; Fri] <-> In d [Sat; Sun]).
Proof.
  assert (Hn : List.NoDup [Mon; Tue; Wed; Thu; Fri])
    by (repeat constructor; cbn; intuition discriminate).
  split; [exact Hn|].
  apply renderRepeatDays_labels; exact Hn.
Defined.


(** X20 adding a second alarm beside ["a1"]. *)
Lemma addAlarm_Sync_witness :
  Sync demo_s0 /\ findAlarm "a2" (alarms demo_s0) = None /\
  Sync (snd (addAlarm demo_input "a2" 1760954400000 demo_s0)).
Proof.
  assert (Hs : Sync demo_s0).
  { split; [reflexivity|]. repeat constructor; cbn; intuition discriminate. }
  split; [exact Hs|]. split; [vm_compute; reflexivity|].
  apply addAlarm_Sync; [exact Hs | vm_compute; reflexivity].
Defined.


(** X23 dismissing a repeating alarm while the notifier refuses. *)
Lemma onDismiss_refused_reschedule_keeps_stale_token_witness :
  findAlarm "a1" (alarms repeating_refusing_state) = Some repeating_alarm /\
  repeats repeating_alarm <> [] /\ isEnabled repeating_alarm = true /\
  notificationId repeating_alarm = Some 0%nat /\
  scheduleOutcomes (notifier repeating_refusing_state) = false :: [] /\
  let (r, s') := onDismiss "a1" 1760954400000 repeating_refusing_state in
  r = Ok tt /\ alarms s' = alarms repeating_refusing_state /\
  storage s' = storage repeating_refusing_state /\ error s' = error repeating_refusing_state /\
  ~ In 0%nat (identifiers (notifier s')).
Proof.
  split; [vm_compute; reflexivity|]. split; [discriminate|].
  split; [reflexivity|]. split; [reflexivity|]. split; [reflexivity|].
  apply (onDismiss_refused_reschedule_keeps_stale_token "a1" 1760954400000
           repeating_refusing_state repeating_alarm 0%nat []);
    [vm_compute; reflexivity | discriminate | reflexivity | reflexivity | reflexivity].
Defined.

